(** * AiAyat: the chat session controller of [src/App.tsx]

    A shallow embedding of the session/message state handling of the
    [App] component ([src/App.tsx]), of the completion client
    ([services/gemini], second half of [src/App.tsx]) and of the
    export/import handlers of [src/components/SideMenu.tsx], followed by
    the properties of the specification that were checked against it.

    Conventions of the embedding:
    - a JavaScript string is the list of its UTF-16 code units, which is
      what [length], [slice] and [includes] observe;
    - [Date.now()] is an input: every call site of the source is a
      parameter of the handler that contains it;
    - React state is passed explicitly.  A handler is a closure of the
      render in which it was created: what it reads from component scope
      ([messages], [sessions], [currentSessionId], [selectedModel],
      [userSettings]) is read from the state at the time the handler is
      entered, while an updater given to [setSessions] is applied to the
      state reached by the updates queued before it;
    - [localStorage] is a finite map from keys to texts. *)

From stdpp Require Import base option list sorting gmap strings.
From Stdlib Require Import ZArith NArith Ascii DecimalString.

Set Warnings "-register-all".

Local Open Scope Z_scope.
Local Open Scope list_scope.

(** ** JavaScript strings *)

Abbreviation jsstring := (list N).

(** An ASCII literal of the source, as code units. *)
Definition lit (s : string) : jsstring :=
  List.map N_of_ascii (String.list_ascii_of_string s).

(** [a.startsWith(b)] *)
Fixpoint startsWith (a b : jsstring) : bool :=
  match b, a with
  | [], _ => true
  | _ :: _, [] => false
  | y :: b', x :: a' => (x =? y)%N && startsWith a' b'
  end.

(** [a.includes(b)] *)
Fixpoint includes (a b : jsstring) : bool :=
  startsWith a b ||
  match a with
  | [] => false
  | _ :: a' => includes a' b
  end.

(** [a.slice(0, n)] *)
Definition slice0 (a : jsstring) (n : nat) : jsstring := take n a.

(** [n.toString()] for an integral number. *)
Definition toString (n : Z) : jsstring :=
  lit (NilZero.string_of_int (Z.to_int n)).

(** [s1 === s2] on strings *)
Definition str_eqb (a b : jsstring) : bool := bool_decide (a = b).

(** Truthiness of an optional boolean ([undefined] is falsy). *)
Definition truthy (b : option bool) : bool := default false b.

(** Truthiness of an optional string ([undefined] and [''] are falsy). *)
Definition truthy_str (s : option jsstring) : bool :=
  match s with
  | Some (_ :: _) => true
  | _ => false
  end.

(** ** Data model ([types.ts]) *)

(** A browser [File]; only its MIME type is read.  A [File] has no own
    enumerable property, so [JSON.stringify] writes it as [{}], and what
    is read back is a plain empty object. *)
Inductive File :=
  | BrowserFile (name : jsstring) (mime : jsstring)
  | EmptyObject.

Inductive AttachmentType := image | audio | pdf | other.

Record Attachment := mkAttachment {
  file : File;
  previewUrl : jsstring;
  type : AttachmentType;
  base64 : option jsstring
}.

Inductive GeminiModelId :=
  | gemini_3_pro_preview
  | gemini_2_0_pro_exp_02_05
  | gemini_2_5_flash
  | gemini_flash_lite_latest.

Inductive Role := user | model.

Record Message := mkMessage {
  m_id : jsstring;
  role : Role;
  text : jsstring;
  isStreaming : option bool;
  error : option bool;
  isHidden : option bool;
  attachments : option (list Attachment);
  modelId : option GeminiModelId
}.

(** [lastModelId], declared optional in [types.ts], is never written or
    read and is left out. *)
Record ChatSession := mkChatSession {
  s_id : jsstring;
  title : jsstring;
  messages : list Message;
  updatedAt : Z
}.

Record UserSettings := mkUserSettings {
  apiKey : jsstring;
  userName : jsstring
}.

#[global] Instance File_eq_dec : EqDecision File.
Proof. solve_decision. Defined.
#[global] Instance AttachmentType_eq_dec : EqDecision AttachmentType.
Proof. solve_decision. Defined.
#[global] Instance Attachment_eq_dec : EqDecision Attachment.
Proof. solve_decision. Defined.
#[global] Instance GeminiModelId_eq_dec : EqDecision GeminiModelId.
Proof. solve_decision. Defined.
#[global] Instance Role_eq_dec : EqDecision Role.
Proof. solve_decision. Defined.
#[global] Instance Message_eq_dec : EqDecision Message.
Proof. solve_decision. Defined.
#[global] Instance ChatSession_eq_dec : EqDecision ChatSession.
Proof. solve_decision. Defined.

(** The identifier strings of the models. *)
Definition model_name (m : GeminiModelId) : jsstring :=
  match m with
  | gemini_3_pro_preview => lit "gemini-3-pro-preview"
  | gemini_2_0_pro_exp_02_05 => lit "gemini-2.0-pro-exp-02-05"
  | gemini_2_5_flash => lit "gemini-2.5-flash"
  | gemini_flash_lite_latest => lit "gemini-flash-lite-latest"
  end.

(** ['محادثة جديدة (New Chat)'], the title given by [createNewSession]:
    eleven Arabic letters and a space as code units, then the ASCII part. *)
Definition default_title : jsstring :=
  [0x645; 0x62D; 0x627; 0x62F; 0x62B; 0x629; 0x20;
   0x62C; 0x62F; 0x64A; 0x62F; 0x629]%N ++ lit " (New Chat)".

(** ** JSON values and texts

    [JSON.stringify] and [JSON.parse] belong to the platform.  A text is
    either the serialisation of a JSON value, which [JSON.parse] gives
    back, or something [JSON.parse] rejects.  The numbers that occur are
    integral timestamps.  [JNum n] stands for a number that a double
    holds exactly, as the ones that [Date.now()] gives and the page
    writes are; [JSON.parse] rounds a longer numeral to the nearest
    double, which is not modelled, so what is said of documents not
    written by the page is said for numbers below 2^53 in magnitude. *)

Inductive json :=
  | JNull
  | JBool (b : bool)
  | JNum (n : Z)
  | JStr (s : jsstring)
  | JArr (l : list json)
  | JObj (fields : list (jsstring * json)).

Inductive jstext :=
  | JsonText (v : json)
  | OtherText (raw : jsstring).

Definition JSON_stringify (v : json) : jstext := JsonText v.

(** [None] stands for the [SyntaxError] thrown by [JSON.parse]. *)
Definition JSON_parse (t : jstext) : option json :=
  match t with
  | JsonText v => Some v
  | OtherText _ => None
  end.

Definition Array_isArray (v : json) : bool :=
  match v with
  | JArr _ => true
  | _ => false
  end.

(** A property whose value is [undefined] is left out by
    [JSON.stringify]. *)
Definition opt_field (k : string) (v : option json) : list (jsstring * json) :=
  match v with
  | Some j => [(lit k, j)]
  | None => []
  end.

Definition json_of_File (f : File) : json := JObj [].

Definition json_of_AttachmentType (t : AttachmentType) : json :=
  JStr (match t with
        | image => lit "image"
        | audio => lit "audio"
        | pdf => lit "pdf"
        | other => lit "other"
        end).

Definition json_of_Attachment (a : Attachment) : json :=
  JObj ([(lit "file", json_of_File (file a));
         (lit "previewUrl", JStr (previewUrl a));
         (lit "type", json_of_AttachmentType (type a))]
        ++ opt_field "base64" (JStr <$> base64 a)).

Definition json_of_Role (r : Role) : json :=
  JStr (match r with user => lit "user" | model => lit "model" end).

Definition json_of_Message (m : Message) : json :=
  JObj ([(lit "id", JStr (m_id m));
         (lit "role", json_of_Role (role m));
         (lit "text", JStr (text m))]
        ++ opt_field "isStreaming" (JBool <$> isStreaming m)
        ++ opt_field "error" (JBool <$> error m)
        ++ opt_field "isHidden" (JBool <$> isHidden m)
        ++ opt_field "attachments"
             ((fun l => JArr (List.map json_of_Attachment l)) <$> attachments m)
        ++ opt_field "modelId" ((fun i => JStr (model_name i)) <$> modelId m)).

Definition json_of_ChatSession (s : ChatSession) : json :=
  JObj [(lit "id", JStr (s_id s));
        (lit "title", JStr (title s));
        (lit "messages", JArr (List.map json_of_Message (messages s)));
        (lit "updatedAt", JNum (updatedAt s))].

(** The JSON value of [JSON.stringify(sessions)].  Properties are read
    back by name, so the order in which an object lists them is not
    observed. *)
Definition json_of_sessions (l : list ChatSession) : json :=
  JArr (List.map json_of_ChatSession l).

(** Reading a parsed value at the TypeScript type it is cast to.  The
    cast is unchecked in the source; [None] marks a value that is not of
    the declared type, about which the typed model says nothing. *)

Fixpoint get_field (k : jsstring) (fs : list (jsstring * json)) : option json :=
  match fs with
  | [] => None
  | (k', v) :: fs' => if str_eqb k' k then Some v else get_field k fs'
  end.

Definition as_str (j : json) : option jsstring :=
  match j with JStr s => Some s | _ => None end.
Definition as_bool (j : json) : option bool :=
  match j with JBool b => Some b | _ => None end.
Definition as_num (j : json) : option Z :=
  match j with JNum n => Some n | _ => None end.
Definition as_arr (j : json) : option (list json) :=
  match j with JArr l => Some l | _ => None end.
Definition as_obj (j : json) : option (list (jsstring * json)) :=
  match j with JObj fs => Some fs | _ => None end.

(** A required property. *)
Definition req {A} (rd : json -> option A) (k : string)
    (fs : list (jsstring * json)) : option A :=
  get_field (lit k) fs ≫= rd.

(** An optional property: absent is [undefined]. *)
Definition opt {A} (rd : json -> option A) (k : string)
    (fs : list (jsstring * json)) : option (option A) :=
  match get_field (lit k) fs with
  | None => Some None
  | Some j => Some <$> rd j
  end.

Fixpoint read_all {A} (rd : json -> option A) (l : list json) : option (list A) :=
  match l with
  | [] => Some []
  | j :: l' =>
      x ← rd j; xs ← read_all rd l'; Some (x :: xs)
  end.

Definition File_of_json (j : json) : option File :=
  match j with JObj [] => Some EmptyObject | _ => None end.

Definition AttachmentType_of_json (j : json) : option AttachmentType :=
  s ← as_str j;
  if str_eqb s (lit "image") then Some image
  else if str_eqb s (lit "audio") then Some audio
  else if str_eqb s (lit "pdf") then Some pdf
  else if str_eqb s (lit "other") then Some other
  else None.

Definition Attachment_of_json (j : json) : option Attachment :=
  fs ← as_obj j;
  f ← req File_of_json "file" fs;
  p ← req as_str "previewUrl" fs;
  t ← req AttachmentType_of_json "type" fs;
  b ← opt as_str "base64" fs;
  Some (mkAttachment f p t b).

Definition Role_of_json (j : json) : option Role :=
  s ← as_str j;
  if str_eqb s (lit "user") then Some user
  else if str_eqb s (lit "model") then Some model
  else None.

Definition GeminiModelId_of_json (j : json) : option GeminiModelId :=
  s ← as_str j;
  if str_eqb s (model_name gemini_3_pro_preview) then Some gemini_3_pro_preview
  else if str_eqb s (model_name gemini_2_0_pro_exp_02_05) then Some gemini_2_0_pro_exp_02_05
  else if str_eqb s (model_name gemini_2_5_flash) then Some gemini_2_5_flash
  else if str_eqb s (model_name gemini_flash_lite_latest) then Some gemini_flash_lite_latest
  else None.

Definition Message_of_json (j : json) : option Message :=
  fs ← as_obj j;
  i ← req as_str "id" fs;
  r ← req Role_of_json "role" fs;
  t ← req as_str "text" fs;
  st ← opt as_bool "isStreaming" fs;
  e ← opt as_bool "error" fs;
  h ← opt as_bool "isHidden" fs;
  a ← opt (fun j => as_arr j ≫= read_all Attachment_of_json) "attachments" fs;
  mo ← opt GeminiModelId_of_json "modelId" fs;
  Some (mkMessage i r t st e h a mo).

Definition ChatSession_of_json (j : json) : option ChatSession :=
  fs ← as_obj j;
  i ← req as_str "id" fs;
  t ← req as_str "title" fs;
  ms ← req (fun j => as_arr j ≫= read_all Message_of_json) "messages" fs;
  u ← req as_num "updatedAt" fs;
  Some (mkChatSession i t ms u).

Definition sessions_of_json (j : json) : option (list ChatSession) :=
  as_arr j ≫= read_all ChatSession_of_json.

(** What [JSON.parse(JSON.stringify(x))] keeps of a value: everything
    but the [File] handles of attachments. *)
Definition clone_Attachment (a : Attachment) : Attachment :=
  mkAttachment EmptyObject (previewUrl a) (type a) (base64 a).

Definition clone_Message (m : Message) : Message :=
  mkMessage (m_id m) (role m) (text m) (isStreaming m) (error m) (isHidden m)
            (List.map clone_Attachment <$> attachments m) (modelId m).

Definition clone_ChatSession (s : ChatSession) : ChatSession :=
  mkChatSession (s_id s) (title s) (List.map clone_Message (messages s)) (updatedAt s).

(** ** Completion client ([services/gemini]) *)

(** The live chat handle made by [ai.chats.create]: the model and the
    credential it was created for. *)
Record Chat := mkChat {
  chat_model : GeminiModelId;
  chat_apiKey : jsstring
}.

(** The module-level variables [chatSession], [currentModelId] and
    [currentApiKey]. *)
Record Gemini := mkGemini {
  chatSession : option Chat;
  currentModelId : GeminiModelId;
  currentApiKey : jsstring
}.

Definition Gemini_init : Gemini := mkGemini None gemini_3_pro_preview [].

Inductive Part :=
  | inlineData (mimeType : option jsstring) (data : jsstring)
  | textPart (t : jsstring).

(** The [message] property given to [chat.sendMessageStream]. *)
Inductive MessageParam :=
  | PlainMessage (t : jsstring)
  | PartsMessage (parts : list Part).

(** One call of the vendor SDK: the handle and what was sent on it. *)
Record Request := mkRequest {
  req_chat : Chat;
  req_message : MessageParam
}.

Definition getChatSession (modelId : GeminiModelId) (key : jsstring)
    (g : Gemini) : Gemini * Chat :=
  match chatSession g with
  | Some c =>
      if bool_decide (currentModelId g ≠ modelId)
         || bool_decide (currentApiKey g ≠ key)
      then (mkGemini (Some (mkChat modelId key)) modelId key, mkChat modelId key)
      else (g, c)
  | None => (mkGemini (Some (mkChat modelId key)) modelId key, mkChat modelId key)
  end.

Definition resetChatSession (g : Gemini) : Gemini :=
  mkGemini None (currentModelId g) (currentApiKey g).

(** [att.file.type] *)
Definition file_type (f : File) : option jsstring :=
  match f with
  | BrowserFile _ mime => Some mime
  | EmptyObject => None
  end.

Definition attachmentPart (att : Attachment) : Part :=
  inlineData (file_type (file att)) (default [] (base64 att)).

(** [sendMessageStream], up to the call of the SDK: the left result is
    the message of the [Error] thrown, the right one the request made. *)
Definition sendMessageStream (message : jsstring) (atts : list Attachment)
    (modelId : GeminiModelId) (key : jsstring) (g : Gemini)
    : Gemini * (jsstring + Request) :=
  match key with
  | [] => (g, inl (lit "API Key is required"))
  | _ :: _ =>
      let '(g', chat) := getChatSession modelId key g in
      let parts :=
        if (0 <? length atts)%nat
        then List.map attachmentPart atts ++ [textPart message]
        else [textPart message] in
      (g', inr (mkRequest chat
                  (if (length parts =? 1)%nat then PlainMessage message
                   else PartsMessage parts)))
  end.

(** ** Application state

    The React state of [App] that the controller uses, the ref
    [stopGenerationRef], the module state of the completion client, the
    browser's [localStorage], and a record of what was done to the
    outside: requests to the SDK, notices shown with [alert], page
    reloads. *)

Record AppState := mkAppState {
  userSettings : option UserSettings;
  sessions : list ChatSession;
  currentSessionId : option jsstring;
  isLoading : bool;
  selectedModel : GeminiModelId;
  stopGenerationRef : bool;
  gemini : Gemini;
  localStorage : gmap string jstext;
  requests : list Request;
  alerts : list string;
  reloads : nat
}.

Definition setUserSettings (v : option UserSettings) (st : AppState) : AppState :=
  mkAppState v (sessions st) (currentSessionId st) (isLoading st)
    (selectedModel st) (stopGenerationRef st) (gemini st) (localStorage st)
    (requests st) (alerts st) (reloads st).

Definition setSessions (f : list ChatSession -> list ChatSession)
    (st : AppState) : AppState :=
  mkAppState (userSettings st) (f (sessions st)) (currentSessionId st)
    (isLoading st) (selectedModel st) (stopGenerationRef st) (gemini st)
    (localStorage st) (requests st) (alerts st) (reloads st).

Definition setCurrentSessionId (v : option jsstring) (st : AppState) : AppState :=
  mkAppState (userSettings st) (sessions st) v (isLoading st)
    (selectedModel st) (stopGenerationRef st) (gemini st) (localStorage st)
    (requests st) (alerts st) (reloads st).

Definition setIsLoading (v : bool) (st : AppState) : AppState :=
  mkAppState (userSettings st) (sessions st) (currentSessionId st) v
    (selectedModel st) (stopGenerationRef st) (gemini st) (localStorage st)
    (requests st) (alerts st) (reloads st).

Definition setSelectedModel (v : GeminiModelId) (st : AppState) : AppState :=
  mkAppState (userSettings st) (sessions st) (currentSessionId st)
    (isLoading st) v (stopGenerationRef st) (gemini st) (localStorage st)
    (requests st) (alerts st) (reloads st).

Definition setStopGeneration (v : bool) (st : AppState) : AppState :=
  mkAppState (userSettings st) (sessions st) (currentSessionId st)
    (isLoading st) (selectedModel st) v (gemini st) (localStorage st)
    (requests st) (alerts st) (reloads st).

Definition setGemini (v : Gemini) (st : AppState) : AppState :=
  mkAppState (userSettings st) (sessions st) (currentSessionId st)
    (isLoading st) (selectedModel st) (stopGenerationRef st) v
    (localStorage st) (requests st) (alerts st) (reloads st).

Definition setLocalStorage (f : gmap string jstext -> gmap string jstext)
    (st : AppState) : AppState :=
  mkAppState (userSettings st) (sessions st) (currentSessionId st)
    (isLoading st) (selectedModel st) (stopGenerationRef st) (gemini st)
    (f (localStorage st)) (requests st) (alerts st) (reloads st).

Definition addRequest (r : Request) (st : AppState) : AppState :=
  mkAppState (userSettings st) (sessions st) (currentSessionId st)
    (isLoading st) (selectedModel st) (stopGenerationRef st) (gemini st)
    (localStorage st) (r :: requests st) (alerts st) (reloads st).

Definition alert (msg : string) (st : AppState) : AppState :=
  mkAppState (userSettings st) (sessions st) (currentSessionId st)
    (isLoading st) (selectedModel st) (stopGenerationRef st) (gemini st)
    (localStorage st) (requests st) (msg :: alerts st) (reloads st).

Definition location_reload (st : AppState) : AppState :=
  mkAppState (userSettings st) (sessions st) (currentSessionId st)
    (isLoading st) (selectedModel st) (stopGenerationRef st) (gemini st)
    (localStorage st) (requests st) (alerts st) (S (reloads st)).

Definition sessions_key : string := "ayat_chat_sessions".
Definition settings_key : string := "ayat_user_settings".

(** [s.id === currentSessionId], the right side being [string | null]. *)
Definition id_is (cur : option jsstring) (i : jsstring) : bool :=
  match cur with
  | Some c => str_eqb i c
  | None => false
  end.

(** Truthiness of [currentSessionId]: neither [null] nor ['']. *)
Definition truthy_id (cur : option jsstring) : bool := truthy_str cur.

(** [sessions.find(s => s.id === currentSessionId)] *)
Definition currentSession (st : AppState) : option ChatSession :=
  List.find (fun s => id_is (currentSessionId st) (s_id s)) (sessions st).

(** [currentSession?.messages || []], the [messages] of a render. *)
Definition currentMessages (st : AppState) : list Message :=
  match currentSession st with
  | Some s => messages s
  | None => []
  end.

Definition set_messages (s : ChatSession) (ms : list Message) : ChatSession :=
  mkChatSession (s_id s) (title s) ms (updatedAt s).

Definition set_text (m : Message) (t : jsstring) : Message :=
  mkMessage (m_id m) (role m) t (isStreaming m) (error m) (isHidden m)
            (attachments m) (modelId m).

(** [{ ...m, text: t, isStreaming: false }] *)
Definition finalize (m : Message) (t : jsstring) : Message :=
  mkMessage (m_id m) (role m) t (Some false) (error m) (isHidden m)
            (attachments m) (modelId m).

(** [{ ...m, text: t, error: true, isStreaming: false }] *)
Definition fail_with (m : Message) (t : jsstring) : Message :=
  mkMessage (m_id m) (role m) t (Some false) (Some true) (isHidden m)
            (attachments m) (modelId m).

(** ** Session management ([App]) *)

Definition createNewSession (t_id t_upd : Z) (st : AppState) : AppState :=
  let newSession := mkChatSession (toString t_id) default_title [] t_upd in
  let st := setSessions (fun prev => newSession :: prev) st in
  let st := setCurrentSessionId (Some (s_id newSession)) st in
  setGemini (resetChatSession (gemini st)) st.

(** [t_id] and [t_upd] are read only when a new session is created. *)
Definition deleteSession (id : jsstring) (t_id t_upd : Z) (st0 : AppState) : AppState :=
  let newSessions :=
    List.filter (fun s => negb (str_eqb (s_id s) id)) (sessions st0) in
  let st := setSessions (fun _ => newSessions) st0 in
  let st := setLocalStorage
              <[sessions_key := JSON_stringify (json_of_sessions newSessions)]> st in
  if id_is (currentSessionId st0) id
  then match newSessions with
       | s :: _ => setCurrentSessionId (Some (s_id s)) st
       | [] => createNewSession t_id t_upd st
       end
  else st.

Definition updateSessionTitle (id newTitle : jsstring) (now : Z)
    (st : AppState) : AppState :=
  setSessions
    (List.map (fun s =>
       if str_eqb (s_id s) id
       then mkChatSession (s_id s) newTitle (messages s) now
       else s)) st.

(** The title computed inside [updateCurrentMessages]. *)
Definition derive_title (s : ChatSession) (newMessages : list Message) : jsstring :=
  if (length (messages s) =? 0)%nat
     && (0 <? length newMessages)%nat
     && includes (title s) (lit "New Chat")
  then match List.find (fun m => bool_decide (role m = user)) newMessages with
       | Some firstMsg =>
           slice0 (text firstMsg) 30
           ++ (if (30 <? length (text firstMsg))%nat then lit "..." else [])
       | None => title s
       end
  else title s.

(** [cur] is the [currentSessionId] of the render the caller belongs
    to; the updater runs on the state at hand. *)
Definition updateCurrentMessages (cur : option jsstring)
    (newMessages : list Message) (now : Z) (st : AppState) : AppState :=
  if negb (truthy_id cur) then st
  else
    setSessions
      (List.map (fun s =>
         if id_is cur (s_id s)
         then mkChatSession (s_id s) (derive_title s newMessages) newMessages now
         else s)) st.

(** ** Chat logic ([App]) *)

Definition handleStop (st0 : AppState) : AppState :=
  let st := setStopGeneration true st0 in
  let st := setIsLoading false st in
  if truthy_id (currentSessionId st0)
  then
    setSessions
      (List.map (fun s =>
         if id_is (currentSessionId st0) (s_id s)
         then set_messages s
                (List.map (fun msg =>
                   if truthy (isStreaming msg)
                   then finalize msg (text msg ++ lit "...")
                   else msg) (messages s))
         else s)) st
  else st.

(** [l.filter((_, i) => p(i))], counting from [i]. *)
Fixpoint filter_index {A} (p : nat -> bool) (i : nat) (l : list A) : list A :=
  match l with
  | [] => []
  | x :: l' =>
      if p i then x :: filter_index p (S i) l' else filter_index p (S i) l'
  end.

Definition handleDeleteMessage (index : nat) (now : Z) (st0 : AppState) : AppState :=
  let updated :=
    filter_index (fun i => negb (i =? index)%nat) 0 (currentMessages st0) in
  updateCurrentMessages (currentSessionId st0) updated now st0.

(** The second argument of [handleSend]: [Attachment[] | boolean]. *)
Inductive SendArg :=
  | Files (l : list Attachment)
  | Hidden (b : bool).

(** [typeof attachments === 'boolean' ? attachments : false] *)
Definition hidden_of (a : SendArg) : bool :=
  match a with
  | Hidden b => b
  | Files _ => false
  end.

(** [Array.isArray(attachments) ? attachments : []] *)
Definition files_of (a : SendArg) : list Attachment :=
  match a with
  | Files l => l
  | Hidden _ => []
  end.

Definition userMessage (txt : jsstring) (a : SendArg) (now : Z)
    (sel : GeminiModelId) : Message :=
  mkMessage (toString now) user txt None None
            (Some (hidden_of a)) (Some (files_of a)) (Some sel).

Definition initialBotMessage (now : Z) (sel : GeminiModelId) : Message :=
  mkMessage (toString (now + 1)) model [] (Some true) None None None (Some sel).

(** The four readings of [Date.now()] in the synchronous part of
    [handleSend], in program order. *)
Record SendClock := mkSendClock {
  t_user : Z;
  t_upd1 : Z;
  t_bot : Z;
  t_upd2 : Z
}.

(** What one invocation of [handleSend] keeps while it awaits the
    stream: the [currentSessionId] and [selectedModel] of its render,
    [botMessageId], and the locals [fullText] and [lastUpdateTime]. *)
Record SendCall := mkSendCall {
  call_sessionId : option jsstring;
  call_model : GeminiModelId;
  botMessageId : jsstring;
  fullText : jsstring;
  lastUpdateTime : Z
}.

(** The updater shared by every patch of the placeholder. *)
Definition patchBot (c : SendCall) (f : Message -> Message)
    (st : AppState) : AppState :=
  setSessions
    (List.map (fun s =>
       if id_is (call_sessionId c) (s_id s)
       then set_messages s
              (List.map (fun m =>
                 if str_eqb (m_id m) (botMessageId c) then f m else m)
                 (messages s))
       else s)) st.

Definition isQuotaError (message : option jsstring) : bool :=
  match message with
  | Some m =>
      includes m (lit "429") || includes m (lit "quota")
      || includes m (lit "exhausted")
  | None => false
  end.

(** The notice of the fallback path: U+26A0 U+FE0F, then the text with
    its line feeds. *)
Definition quota_notice : jsstring :=
  [0x26A0; 0xFE0F]%N ++ lit " **High Traffic on Pro Model**" ++ [10%N]
  ++ lit "Switching to **Gemini 2.5 Flash** for unlimited speed..."
  ++ [10%N; 10%N] ++ lit "(Please retry your last message)".

(** [m.text + "\n(Connection Error: " + (error.message || "Unknown") + ")"] *)
Definition connection_error_text (t : jsstring) (message : option jsstring) : jsstring :=
  t ++ [10%N] ++ lit "(Connection Error: "
    ++ (if truthy_str message then default [] message else lit "Unknown")
    ++ lit ")".

(** The [catch] block followed by the [finally] block. *)
Definition handleSend_catch (c : SendCall) (message : option jsstring)
    (st : AppState) : AppState :=
  let st :=
    if isQuotaError message && bool_decide (call_model c = gemini_3_pro_preview)
    then
      let st := setSelectedModel gemini_2_5_flash st in
      patchBot c (fun m => fail_with m quota_notice) st
    else
      patchBot c (fun m => fail_with m (connection_error_text (text m) message)) st in
  setIsLoading false st.

(** The final update followed by the [finally] block. *)
Definition handleSend_final (c : SendCall) (st : AppState) : AppState :=
  setIsLoading false (patchBot c (fun m => finalize m (fullText c)) st).

(** [userSettings?.apiKey] when it is truthy: there are settings and
    their key is not the empty string. *)
Definition credential (st : AppState) : option jsstring :=
  match userSettings st with
  | Some us =>
      match apiKey us with
      | [] => None
      | _ :: _ => Some (apiKey us)
      end
  | None => None
  end.

(** [handleSend] up to its first suspension.  [snap] is the state of the
    render whose closure runs; [st] is the state its updates apply to.
    The result holds the call that now awaits the stream, if any. *)
Definition handleSend_begin (snap : AppState) (txt : jsstring) (a : SendArg)
    (clk : SendClock) (st : AppState) : AppState * option SendCall :=
  match credential snap with
  | None => (st, None)
  | Some key =>
      let cur := currentSessionId snap in
      let sel := selectedModel snap in
      let files := files_of a in
      let st := setStopGeneration false st in
      let userMsg := userMessage txt a (t_user clk) sel in
      let newMessagesWithUser := currentMessages snap ++ [userMsg] in
      let st := updateCurrentMessages cur newMessagesWithUser (t_upd1 clk) st in
      let st := setIsLoading true st in
      let bot := initialBotMessage (t_bot clk) sel in
      let newMessagesWithBot := newMessagesWithUser ++ [bot] in
      let st := updateCurrentMessages cur newMessagesWithBot (t_upd2 clk) st in
      let c := mkSendCall cur sel (m_id bot) [] 0 in
      match sendMessageStream txt files sel key (gemini st) with
      | (g, inr r) => (addRequest r (setGemini g st), Some c)
      | (g, inl e) => (handleSend_catch c (Some e) (setGemini g st), None)
      end
  end.

(** [handleSend] called from a render in state [st]. *)
Definition handleSend (txt : jsstring) (a : SendArg) (clk : SendClock)
    (st : AppState) : AppState * option SendCall :=
  handleSend_begin st txt a clk st.

(** What the stream does next for a call that awaits it. *)
Inductive StreamEvent :=
  | chunk (t : option jsstring) (now : Z)
  | stream_end
  | stream_error (message : option jsstring).

(** One turn of the [for await] loop, or the end of the [try]. *)
Definition handleSend_event (c : SendCall) (ev : StreamEvent)
    (st : AppState) : AppState * option SendCall :=
  match ev with
  | chunk t now =>
      if stopGenerationRef st then (handleSend_final c st, None)
      else
        let full := fullText c ++ default [] t in
        if 50 <? now - lastUpdateTime c
        then
          let c' := mkSendCall (call_sessionId c) (call_model c)
                      (botMessageId c) full now in
          (patchBot c (fun m => set_text m full) st, Some c')
        else
          (st, Some (mkSendCall (call_sessionId c) (call_model c)
                       (botMessageId c) full (lastUpdateTime c)))
  | stream_end => (handleSend_final c st, None)
  | stream_error message => (handleSend_catch c message st, None)
  end.

(** [handleResend]: when [messages[index]] is [undefined] the handler
    stops with a [TypeError] after the truncation was queued. *)
Definition handleResend (index : nat) (t_trunc : Z) (clk : SendClock)
    (st0 : AppState) : AppState * option SendCall :=
  let msgs := currentMessages st0 in
  let updated := take index msgs in
  let st := updateCurrentMessages (currentSessionId st0) updated t_trunc st0 in
  match msgs !! index with
  | Some msgToResend =>
      handleSend_begin st0 (text msgToResend)
        (Files (default [] (attachments msgToResend))) clk st
  | None => (st, None)
  end.

(** ** Start-up effects and auto-save ([App]) *)

(** [parsed.sort((a, b) => b.updatedAt - a.updatedAt)].  [Array.sort] is
    stable: elements the comparison does not separate keep their order. *)
Definition comparefn (a b : ChatSession) : Z := updatedAt b - updatedAt a.

Fixpoint sort_insert (x : ChatSession) (l : list ChatSession) : list ChatSession :=
  match l with
  | [] => [x]
  | y :: l' => if 0 <? comparefn x y then y :: sort_insert x l' else x :: l
  end.

Definition Array_sort (l : list ChatSession) : list ChatSession :=
  foldr sort_insert [] l.

Definition json_of_UserSettings (u : UserSettings) : json :=
  JObj [(lit "apiKey", JStr (apiKey u)); (lit "userName", JStr (userName u))].

Definition UserSettings_of_json (j : json) : option UserSettings :=
  fs ← as_obj j;
  k ← req as_str "apiKey" fs;
  n ← req as_str "userName" fs;
  Some (mkUserSettings k n).

(** Effect 1.  [None]: the stored value is not a [UserSettings]. *)
Definition loadSettings (st : AppState) : option AppState :=
  match localStorage st !! settings_key with
  | Some stored =>
      match JSON_parse stored with
      | Some v => u ← UserSettings_of_json v; Some (setUserSettings (Some u) st)
      | None => Some st
      end
  | None => Some st
  end.

(** Effect 2.  A value that is not an array makes [parsed.sort] throw,
    which the [catch] turns into a new session.  [None]: the stored
    array is not a [ChatSession[]]. *)
Definition loadSessions (t_id t_upd : Z) (st : AppState) : option AppState :=
  match localStorage st !! sessions_key with
  | Some savedSessions =>
      match JSON_parse savedSessions with
      | Some (JArr vs) =>
          parsed ← read_all ChatSession_of_json vs;
          let parsed := Array_sort parsed in
          let st := setSessions (fun _ => parsed) st in
          Some (match parsed with
                | s :: _ => setCurrentSessionId (Some (s_id s)) st
                | [] => createNewSession t_id t_upd st
                end)
      | Some _ => Some (createNewSession t_id t_upd st)
      | None => Some (createNewSession t_id t_upd st)
      end
  | None => Some (createNewSession t_id t_upd st)
  end.

(** Effect 3, run after every render in which [sessions] changed. *)
Definition autoSave (st : AppState) : AppState :=
  if (0 <? length (sessions st))%nat
  then setLocalStorage
         <[sessions_key := JSON_stringify (json_of_sessions (sessions st))]> st
  else st.

(** A page load on a given [localStorage]: the initial state of the
    hooks, then the three effects. *)
Definition initial_state (ls : gmap string jstext) : AppState :=
  mkAppState None [] None false gemini_3_pro_preview false Gemini_init ls [] [] 0.

Definition boot (ls : gmap string jstext) (t_id t_upd : Z) : option AppState :=
  st ← loadSettings (initial_state ls);
  st ← loadSessions t_id t_upd st;
  Some (autoSave st).

(** ** Export and import ([SideMenu]) *)

(** The content of the file offered by [handleExport]. *)
Definition handleExport (l : list ChatSession) : jstext :=
  JSON_stringify (json_of_sessions l).

(** [handleImport] with the text of the selected file, if one was
    selected. *)
Definition handleImport (selected : option jstext) (st : AppState) : AppState :=
  match selected with
  | None => st
  | Some content =>
      match JSON_parse content with
      | Some parsed =>
          if Array_isArray parsed
          then
            let st := setLocalStorage
                        <[sessions_key := JSON_stringify parsed]> st in
            location_reload st
          else alert "Invalid JSON format" st
      | None => alert "Error reading file" st
      end
  end.

(** Export, import of the exported file, and the page load that the
    import asks for. *)
Definition export_import (t_id t_upd : Z) (st : AppState) : option AppState :=
  let st' := handleImport (Some (handleExport (sessions st))) st in
  boot (localStorage st') t_id t_upd.

(** ** Sign-in and sign-out *)

(** [handleSubmit] of the welcome screen, once its two checks passed,
    followed by [onComplete]. *)
Definition handleSubmit (u : UserSettings) (st : AppState) : AppState :=
  let st := setLocalStorage
              <[settings_key := JSON_stringify (json_of_UserSettings u)]> st in
  setUserSettings (Some u) st.

(** [handleLogout], confirmed. *)
Definition handleLogout (st : AppState) : AppState :=
  let st := setLocalStorage (delete settings_key) st in
  let st := setUserSettings None st in
  setGemini (resetChatSession (gemini st)) st.

(** ** The controller as a transition system

    The state of the page and the invocations of [handleSend] that
    await their stream.  An event is a click the page offers in that
    state, or the next thing a stream does. *)

Record World := mkWorld {
  app : AppState;
  calls : list SendCall
}.

Inductive Event :=
  | signIn (u : UserSettings)
  | signOut
  | compose (txt : jsstring) (files : list Attachment) (clk : SendClock)
  | action (txt : jsstring) (hidden : bool) (clk : SendClock)
  | resend (index : nat) (t_trunc : Z) (clk : SendClock)
  | deleteMessage (index : nat) (now : Z)
  | stop
  | newSession (t_id t_upd : Z)
  | removeSession (id : jsstring) (t_id t_upd : Z)
  | selectSession (id : jsstring)
  | selectModel (m : GeminiModelId)
  | rename (newTitle : jsstring) (now : Z)
  | stream (k : nat) (ev : StreamEvent).

(** A message that [ChatMessage] renders. *)
Definition rendered (m : Message) : bool := negb (truthy (isHidden m)).

Definition has_id (id : jsstring) (s : ChatSession) : bool := str_eqb (s_id s) id.

(** What the page offers.  The welcome screen replaces everything else
    while there are no settings; the composer is disabled while
    [isLoading] and shows the stop button instead; resend is offered on
    rendered user messages and on rendered failed messages; the action
    buttons sit on rendered model messages; delete on every rendered
    message. *)
Definition enabled (w : World) (e : Event) : bool :=
  let st := app w in
  match e with
  | signIn u =>
      bool_decide (userSettings st = None)
      && startsWith (apiKey u) (lit "AIza")
      && negb (bool_decide (userName u = []))
  | stream k _ => bool_decide (is_Some (calls w !! k))
  | _ =>
      bool_decide (is_Some (userSettings st))
      && match e with
         | compose _ _ _ => negb (isLoading st)
         | action _ _ _ =>
             existsb (fun m => rendered m && bool_decide (role m = model))
                     (currentMessages st)
         | resend index _ _ =>
             match currentMessages st !! index with
             | Some m =>
                 rendered m && (bool_decide (role m = user) || truthy (error m))
             | None => false
             end
         | deleteMessage index _ =>
             match currentMessages st !! index with
             | Some m => rendered m
             | None => false
             end
         | stop => isLoading st
         | removeSession id _ _ => existsb (has_id id) (sessions st)
         | selectSession id => existsb (has_id id) (sessions st)
         | rename _ _ => truthy_id (currentSessionId st)
         | _ => true
         end
  end.

Definition add_call (cs : list SendCall) (oc : option SendCall) : list SendCall :=
  match oc with
  | Some c => cs ++ [c]
  | None => cs
  end.

(** The handler of the event, then the auto-save effect.  The source
    runs the effect after the renders in which [sessions] changed; here
    it runs after every event, which rewrites the same document when the
    store is in step with the session list, as it is from a page load
    on.  [fire_exact] below runs the effect as the source does, and the
    two are shown to agree on such runs. *)
Definition fire (w : World) (e : Event) : World :=
  let st := app w in
  let '(st', cs) :=
    match e with
    | signIn u => (handleSubmit u st, calls w)
    | signOut => (handleLogout st, calls w)
    | compose txt files clk =>
        let '(st', oc) := handleSend txt (Files files) clk st in
        (st', add_call (calls w) oc)
    | action txt hidden clk =>
        let '(st', oc) := handleSend txt (Hidden hidden) clk st in
        (st', add_call (calls w) oc)
    | resend index t_trunc clk =>
        let '(st', oc) := handleResend index t_trunc clk st in
        (st', add_call (calls w) oc)
    | deleteMessage index now => (handleDeleteMessage index now st, calls w)
    | stop => (handleStop st, calls w)
    | newSession t_id t_upd => (createNewSession t_id t_upd st, calls w)
    | removeSession id t_id t_upd => (deleteSession id t_id t_upd st, calls w)
    | selectSession id => (setCurrentSessionId (Some id) st, calls w)
    | selectModel m => (setSelectedModel m st, calls w)
    | rename newTitle now =>
        (updateSessionTitle (default [] (currentSessionId st)) newTitle now st,
         calls w)
    | stream k ev =>
        match calls w !! k with
        | Some c =>
            let '(st', oc) := handleSend_event c ev st in
            (st', match oc with
                  | Some c' => <[k := c']> (calls w)
                  | None => delete k (calls w)
                  end)
        | None => (st, calls w)
        end
    end in
  mkWorld (autoSave st') cs.

Definition step (w : World) (e : Event) : option World :=
  if enabled w e then Some (fire w e) else None.

Fixpoint run (w : World) (es : list Event) : option World :=
  match es with
  | [] => Some w
  | e :: es' => w' ← step w e; run w' es'
  end.

(** A state the page can be in: some page load, then some events. *)
Definition reachable (w : World) : Prop :=
  ∃ ls t_id t_upd st0 es,
    boot ls t_id t_upd = Some st0 ∧ run (mkWorld st0 []) es = Some w.

(** The number of messages of a session marked as streaming. *)
Definition streaming_count (s : ChatSession) : nat :=
  length (List.filter (fun m => truthy (isStreaming m)) (messages s)).

(** At most one message of the session is marked as streaming. *)
Definition one_stream (s : ChatSession) : bool := (streaming_count s <=? 1)%nat.

(** ** What the properties compare *)

(** What is compared of two session lists: the ids in order and, for
    each session, the ids and texts of its messages in order. *)
Definition outline (l : list ChatSession) : list (jsstring * list (jsstring * jsstring)) :=
  List.map (fun s => (s_id s, List.map (fun m => (m_id m, text m)) (messages s))) l.

(** The order that loading gives: [a] stands before [b] only if [a] was
    updated no earlier than [b]. *)
Definition newer_first (a b : ChatSession) : Prop := updatedAt b ≤ updatedAt a.

(** The stored settings document, if there is one and it is JSON, reads
    as a [UserSettings], as it does when sign-in wrote it. *)
Definition settings_readable (st : AppState) : Prop :=
  is_Some (loadSettings (initial_state (localStorage st))).

(** The events that call [handleSend]. *)
Definition starts_send (e : Event) : bool :=
  match e with
  | compose _ _ _ | action _ _ _ | resend _ _ _ => true
  | _ => false
  end.

(** No session of the page has two messages marked as streaming. *)
Definition all_one_stream (st : AppState) : Prop :=
  Forall (fun s => one_stream s = true) (sessions st).

(** No message of the current session is marked as streaming. *)
Definition none_streaming (st : AppState) : Prop :=
  Forall (fun m => truthy (isStreaming m) = false) (currentMessages st).

(** Along the events [es] from [w], every event that starts a send comes
    when no message of the current session is streaming. *)
Fixpoint gated (w : World) (es : list Event) : Prop :=
  match es with
  | [] => True
  | e :: es' =>
      (starts_send e = true → none_streaming (app w)) ∧ gated (fire w e) es'
  end.

(** ** Sample data

    Concrete settings, clocks, sessions and event sequences on which the
    handlers are evaluated below. *)

Definition ann : UserSettings := mkUserSettings (lit "AIzaKEY") (lit "Ann").

Definition clock_at (t : Z) : SendClock := mkSendClock t t t t.

(** A signed-in page with one session, current, of the given title and
    messages. *)
Definition page_with (ttl : jsstring) (ms : list Message) : AppState :=
  mkAppState (Some ann) [mkChatSession (lit "1000") ttl ms 1000]
    (Some (lit "1000")) false gemini_3_pro_preview false Gemini_init ∅ [] [] 0.

Definition hello_user : Message :=
  mkMessage (lit "2000") user (lit "hi") None None (Some false) (Some [])
            (Some gemini_3_pro_preview).

Definition hello_model : Message :=
  mkMessage (lit "2001") model (lit "hello") (Some false) None None None
            (Some gemini_3_pro_preview).

Definition secret_user : Message :=
  mkMessage (lit "2000") user (lit "secret") None None (Some true) (Some [])
            (Some gemini_3_pro_preview).

Definition visible_user : Message :=
  mkMessage (lit "2002") user (lit "hello") None None (Some false) (Some [])
            (Some gemini_3_pro_preview).

(** The first page load of a browser with nothing stored. *)
Definition first_load : World := mkWorld (autoSave (createNewSession 1000 1000 (initial_state ∅))) [].

(** The placeholder of a send made at time 2000 with the top-tier model,
    and the call that awaits its stream. *)
Definition placeholder : Message := initialBotMessage 2000 gemini_3_pro_preview.

Definition pro_call : SendCall :=
  mkSendCall (Some (lit "1000")) gemini_3_pro_preview (lit "2001") [] 0.

Definition streaming_page : AppState :=
  setIsLoading true (page_with (lit "hi") [hello_user; placeholder]).

(** A store left by an earlier visit: Ann's settings and two sessions,
    the one created first also being the one updated last before the
    visit ended. *)
Definition two_stored : gmap string jstext :=
  <[settings_key := JSON_stringify (json_of_UserSettings ann)]>
    (<[sessions_key :=
         JSON_stringify
           (json_of_sessions
              [mkChatSession (lit "1000") (lit "first") [] 5000;
               mkChatSession (lit "2000") (lit "second") [] 3000])]> ∅).

(** Select the session created second and edit its title, then start a
    new session and delete it at once. *)
Definition touch_then_delete_new : list Event :=
  [selectSession (lit "2000"); rename (lit "second!") 6000;
   newSession 7000 7000; removeSession (lit "7000") 8000 8000].

(** Sign in, have one exchange, send "more" from the composer and,
    while its answer is still streaming, click an action button under
    the first answer. *)
Definition action_while_streaming : list Event :=
  [signIn ann; compose (lit "hi") [] (clock_at 2000);
   stream 0 (chunk (Some (lit "hello")) 2100); stream 0 stream_end;
   compose (lit "more") [] (clock_at 3000);
   action (lit "Simplify") false (clock_at 4000)].

(** Sign in, send "hi", receive the chunk "a", press stop, and let the
    stream end. *)
Definition send_chunk : list Event :=
  [signIn ann; compose (lit "hi") [] (clock_at 2000);
   stream 0 (chunk (Some (lit "a")) 2100)].

Definition stop_then_end : list Event := [stop; stream 0 stream_end].

(** Sign in, start a second session, go back to the first one and have
    an exchange there. *)
Definition use_older_session : list Event :=
  [signIn ann; newSession 2000 2000; selectSession (lit "1000");
   compose (lit "hi") [] (clock_at 3000);
   stream 0 (chunk (Some (lit "hello")) 3100); stream 0 stream_end].

(** A page with the session list those events lead to: the session at
    the head of the list was updated before the one behind it. *)
Definition older_used_last : AppState :=
  mkAppState (Some ann)
    [mkChatSession (lit "2000") default_title [] 2000;
     mkChatSession (lit "1000") (lit "hi")
       [userMessage (lit "hi") (Files []) 3000 gemini_3_pro_preview;
        finalize (initialBotMessage 3000 gemini_3_pro_preview) (lit "hello")]
       3000]
    (Some (lit "1000")) false gemini_3_pro_preview false
    (mkGemini (Some (mkChat gemini_3_pro_preview (lit "AIzaKEY")))
       gemini_3_pro_preview (lit "AIzaKEY"))
    (<[settings_key := JSON_stringify (json_of_UserSettings ann)]> ∅) [] [] 0.

(** Sign in, send "hi", receive "a" and, 20 ms later, "b"; then press
    stop. *)
Definition two_quick_chunks_then_stop : list Event :=
  [signIn ann; compose (lit "hi") [] (clock_at 2000);
   stream 0 (chunk (Some (lit "a")) 2100);
   stream 0 (chunk (Some (lit "b")) 2120); stop].

(** ** The rest of the page: welcome screen, composer, message view *)

(** The code units that [String.prototype.trim] removes: white space
    and line terminators. *)
Definition is_space (c : N) : bool :=
  ((9 <=? c) && (c <=? 13) || (c =? 32) || (c =? 0xA0) || (c =? 0x1680)
   || (0x2000 <=? c) && (c <=? 0x200A) || (c =? 0x2028) || (c =? 0x2029)
   || (c =? 0x202F) || (c =? 0x205F) || (c =? 0x3000) || (c =? 0xFEFF))%N.

Fixpoint trimStart (s : jsstring) : jsstring :=
  match s with
  | [] => []
  | c :: s' => if is_space c then trimStart s' else s
  end.

Definition trimEnd (s : jsstring) : jsstring :=
  foldr (fun c r => match r with
                    | [] => if is_space c then [] else [c]
                    | _ :: _ => c :: r
                    end) [] s.

(** [s.trim()] *)
Definition trim (s : jsstring) : jsstring := trimEnd (trimStart s).

(** [handleSubmit] of [WelcomeScreen] on the two inputs: the left result
    is the message given to [setError], the right one the page after
    the settings were stored and handed to [onComplete]. *)
Definition WelcomeScreen_handleSubmit (apiKeyInput userNameInput : jsstring)
    (st : AppState) : string + AppState :=
  if negb (startsWith (trim apiKeyInput) (lit "AIza"))
  then inl "Please enter a valid Google Gemini API Key (starts with AIza...)"
  else if negb (truthy_str (Some (trim userNameInput)))
  then inl "Please enter your name."
  else inr (handleSubmit
              (mkUserSettings (trim apiKeyInput) (trim userNameInput)) st).

(** The state of [ChatInput]: the text typed and the files attached. *)
Record Composer := mkComposer {
  input : jsstring;
  pending : list Attachment
}.

(** [handleSubmit] of [ChatInput]: the composer afterwards, and the
    arguments given to [onSend] if it was called. *)
Definition ChatInput_handleSubmit (disabled streaming : bool) (ci : Composer)
    : Composer * option (jsstring * list Attachment) :=
  if (truthy_str (Some (trim (input ci))) || (0 <? length (pending ci))%nat)
     && negb disabled && negb streaming
  then (mkComposer [] [], Some (input ci, pending ci))
  else (ci, None).

(** The composer as [App] mounts it: [disabled] and [isStreaming] are
    both [isLoading], and [onSend] is [handleSend]. *)
Definition submit (ci : Composer) (clk : SendClock) (st : AppState)
    : Composer * (AppState * option SendCall) :=
  match ChatInput_handleSubmit (isLoading st) (isLoading st) ci with
  | (ci', Some (txt, files)) => (ci', handleSend txt (Files files) clk st)
  | (ci', None) => (ci', (st, None))
  end.

(** [removeAttachment] of [ChatInput] *)
Definition removeAttachment (index : nat) (ci : Composer) : Composer :=
  mkComposer (input ci)
    (filter_index (fun i => negb (i =? index)%nat) 0 (pending ci)).

(** The [type] that [handleFileSelect] gives to a file of MIME type
    [mime]. *)
Definition attachment_type (mime : jsstring) : AttachmentType :=
  if startsWith mime (lit "image/") then image
  else if startsWith mime (lit "audio/") then audio
  else if includes mime (lit "pdf") then pdf
  else other.

(** [s.split(',')[0]] *)
Fixpoint before_comma (s : jsstring) : jsstring :=
  match s with
  | [] => []
  | c :: s' => if (c =? 44)%N then [] else c :: before_comma s'
  end.

(** [s.split(',')[1]]: what stands between the first comma and the
    next, [undefined] without a comma. *)
Fixpoint split_comma_1 (s : jsstring) : option jsstring :=
  match s with
  | [] => None
  | c :: s' => if (c =? 44)%N then Some (before_comma s') else split_comma_1 s'
  end.

(** The attachment that the [onload] of [handleFileSelect] pushes for a
    file, given the data URL read from it and the object URL made for
    it; nothing is pushed when the result is empty. *)
Definition attachment_of_file (f : File) (result : option jsstring)
    (objectUrl : jsstring) : option Attachment :=
  if truthy_str result
  then Some (mkAttachment f objectUrl
               (attachment_type (default [] (file_type f)))
               (split_comma_1 (default [] result)))
  else None.

(** [getTextDirection] of [ChatMessage]: the character class of its
    regular expression, tested on code units. *)
Definition is_arabic (c : N) : bool :=
  ((0x0600 <=? c) && (c <=? 0x06FF) || (0x0750 <=? c) && (c <=? 0x077F)
   || (0x08A0 <=? c) && (c <=? 0x08FF) || (0xFB50 <=? c) && (c <=? 0xFDFF)
   || (0xFE70 <=? c) && (c <=? 0xFEFF))%N.

Inductive Direction := rtl | ltr.

Definition getTextDirection (t : jsstring) : Direction :=
  if existsb is_arabic t then rtl else ltr.

(** [AVAILABLE_MODELS] of the completion client: id and display name. *)
Definition AVAILABLE_MODELS : list (GeminiModelId * string) :=
  [(gemini_3_pro_preview, "Gemini 3 Pro");
   (gemini_2_0_pro_exp_02_05, "Gemini 2.5 Pro");
   (gemini_2_5_flash, "Gemini 2.5 Flash");
   (gemini_flash_lite_latest, "Gemini Flash Lite")]%string.

(** [AVAILABLE_MODELS.find(m => m.id === selectedModel)] *)
Definition currentModelInfo (sel : GeminiModelId) : option (GeminiModelId * string) :=
  List.find (fun e => bool_decide (e.1 = sel)) AVAILABLE_MODELS.

(** ** The loop of one call *)

(** The turns of [handleSend]'s loop on the events of its stream, when
    nothing else happens in between; the call is returned if the events
    run out before the stream ends. *)
Fixpoint handleSend_events (c : SendCall) (evs : list StreamEvent)
    (st : AppState) : AppState * option SendCall :=
  match evs with
  | [] => (st, Some c)
  | ev :: evs' =>
      match handleSend_event c ev st with
      | (st', Some c') => handleSend_events c' evs' st'
      | (st', None) => (st', None)
      end
  end.

(** [chunk.text || ''] of each chunk, joined. *)
Definition chunks_text (chunks : list (option jsstring * Z)) : jsstring :=
  concat (List.map (fun ch => default [] ch.1) chunks).

Definition chunk_events (chunks : list (option jsstring * Z)) : list StreamEvent :=
  List.map (fun ch => chunk ch.1 ch.2) chunks.

(** ** The cached chat handle *)

(** The cached handle, if any, was made for the model and the key that
    the module remembers. *)
Definition handle_consistent (g : Gemini) : Prop :=
  ∀ c, chatSession g = Some c →
       chat_model c = currentModelId g ∧ chat_apiKey c = currentApiKey g.

(** The stored sessions document is the in-memory list. *)
Definition sessions_stored (st : AppState) : Prop :=
  localStorage st !! sessions_key
  = Some (JSON_stringify (json_of_sessions (sessions st))).

(** What [sendMessageStream] sends for a text and its attachments. *)
Definition payload (message : jsstring) (atts : list Attachment) : MessageParam :=
  match atts with
  | [] => PlainMessage message
  | _ :: _ => PartsMessage (List.map attachmentPart atts ++ [textPart message])
  end.

(** [l'] is [l] but for the messages bearing the placeholder id of [c]
    in the sessions bearing its session id: the same sessions at the
    same places with the same id, title and time, the same number of
    messages, and every other message as it was. *)
Definition same_but_placeholder (c : SendCall) (l l' : list ChatSession) : Prop :=
  length l' = length l
  ∧ ∀ k s, l !! k = Some s →
      ∃ s', l' !! k = Some s'
            ∧ s_id s' = s_id s ∧ title s' = title s
            ∧ updatedAt s' = updatedAt s
            ∧ length (messages s') = length (messages s)
            ∧ (id_is (call_sessionId c) (s_id s) = false → s' = s)
            ∧ ∀ i m, messages s !! i = Some m →
                m_id m ≠ botMessageId c → messages s' !! i = Some m.

(** There are no stored sessions to show: nothing is stored under the
    sessions key, or a text that is not JSON, or a JSON value that is
    not an array, or the empty array. *)
Definition nothing_to_load (ls : gmap string jstext) : Prop :=
  match ls !! sessions_key with
  | None => True
  | Some stored =>
      match JSON_parse stored with
      | None => True
      | Some (JArr []) => True
      | Some (JArr (_ :: _)) => False
      | Some _ => True
      end
  end.

(** A store where a text that is not JSON stands under the sessions
    key. *)
Definition broken_store : gmap string jstext :=
  <[sessions_key := OtherText (lit "{oops")]> ∅.

(** A signed-in page whose current session id is borne by no session. *)
Definition page_without_current : AppState :=
  setCurrentSessionId (Some (lit "gone")) (page_with (lit "hi") [hello_user; hello_model]).

(** Sign in, send "hi", receive a chunk and the end of the stream, then
    send "more". *)
Definition two_sends_in_turn : list Event :=
  [signIn ann; compose (lit "hi") [] (clock_at 2000);
   stream 0 (chunk (Some (lit "hello")) 2100); stream 0 stream_end;
   compose (lit "more") [] (clock_at 3000)].

(** A number that [JSON.parse] reads back exactly: an integer below
    2^53 in magnitude. *)
Definition safe_integer (n : Z) : Prop := Z.abs n < 2 ^ 53.

(** ** The auto-save effect, run when the source runs it *)

(** The handler of an event alone: the page and the calls it leaves,
    before any effect runs. *)
Definition handle (w : World) (e : Event) : AppState * list SendCall :=
  let st := app w in
  match e with
  | signIn u => (handleSubmit u st, calls w)
  | signOut => (handleLogout st, calls w)
  | compose txt files clk =>
      let '(st', oc) := handleSend txt (Files files) clk st in
      (st', add_call (calls w) oc)
  | action txt hidden clk =>
      let '(st', oc) := handleSend txt (Hidden hidden) clk st in
      (st', add_call (calls w) oc)
  | resend index t_trunc clk =>
      let '(st', oc) := handleResend index t_trunc clk st in
      (st', add_call (calls w) oc)
  | deleteMessage index now => (handleDeleteMessage index now st, calls w)
  | stop => (handleStop st, calls w)
  | newSession t_id t_upd => (createNewSession t_id t_upd st, calls w)
  | removeSession id t_id t_upd => (deleteSession id t_id t_upd st, calls w)
  | selectSession id => (setCurrentSessionId (Some id) st, calls w)
  | selectModel m => (setSelectedModel m st, calls w)
  | rename newTitle now =>
      (updateSessionTitle (default [] (currentSessionId st)) newTitle now st,
       calls w)
  | stream k ev =>
      match calls w !! k with
      | Some c =>
          let '(st', oc) := handleSend_event c ev st in
          (st', match oc with
                | Some c' => <[k := c']> (calls w)
                | None => delete k (calls w)
                end)
      | None => (st, calls w)
      end
  end.

(** Whether the handler of the event calls [setSessions].  The effect
    depends on [sessions] alone, so the render that follows runs it
    exactly then.  A send sets the list unless it returns for want of a
    credential or [updateCurrentMessages] returns for want of a current
    session id; resend, delete-message and stop set it when there is a
    current session id; creating, deleting and renaming a session
    always do; a chunk does when it is patched or ends a stopped call;
    the end and the failure of a stream always do; signing in or out and
    selecting a session or a model never do. *)
Definition sets_sessions (w : World) (e : Event) : bool :=
  let st := app w in
  match e with
  | signIn _ | signOut | selectSession _ | selectModel _ => false
  | compose _ _ _ | action _ _ _ =>
      bool_decide (is_Some (credential st)) && truthy_id (currentSessionId st)
  | resend _ _ _ | deleteMessage _ _ | stop => truthy_id (currentSessionId st)
  | newSession _ _ | removeSession _ _ _ | rename _ _ => true
  | stream k ev =>
      match calls w !! k with
      | Some c =>
          match ev with
          | chunk _ now => stopGenerationRef st || (50 <? now - lastUpdateTime c)
          | _ => true
          end
      | None => false
      end
  end.

(** The handler of the event, then the auto-save effect if the render
    that follows runs it. *)
Definition fire_exact (w : World) (e : Event) : World :=
  let '(st', cs) := handle w e in
  mkWorld (if sets_sessions w e then autoSave st' else st') cs.

Fixpoint run_exact (w : World) (es : list Event) : option World :=
  match es with
  | [] => Some w
  | e :: es' => if enabled w e then run_exact (fire_exact w e) es' else None
  end.

(** The store is in step with the page: if there are sessions, the
    stored document is their list. *)
Definition in_step (st : AppState) : Prop :=
  sessions st ≠ [] → sessions_stored st.

(** After "hi" was sent and "a" received: stop, send "more", and then
    a late chunk "b" of the first stream. *)
Definition stop_send_late_chunk : list Event :=
  [stop; compose (lit "more") [] (clock_at 3000);
   stream 0 (chunk (Some (lit "b")) 5000)].

(** * Properties *)

(** A closed goal settled by running the handlers. *)
Ltac evaluated := vm_compute; reflexivity.

(** ** Lists, strings and state updates *)

Lemma map_lookup {A B} (f : A → B) (l : list A) (i : nat) :
  List.map f l !! i = f <$> (l !! i).
Proof. exact (list_lookup_fmap f l i). Qed.

Lemma str_eqb_true a b : str_eqb a b = true ↔ a = b.
Proof. unfold str_eqb. apply bool_decide_eq_true. Qed.

Lemma find_first {A} (p : A → bool) (pre : list A) (x : A) (post : list A) :
  Forall (fun y => p y = false) pre →
  p x = true →
  List.find p (pre ++ x :: post) = Some x.
Proof.
  intros Hpre Hx. induction Hpre as [|y pre Hy _ IH]; cbn.
  - by rewrite Hx.
  - by rewrite Hy.
Qed.

Lemma credential_nonempty st key : credential st = Some key → key ≠ [].
Proof.
  unfold credential. destruct (userSettings st) as [us|]; [|done].
  destruct (apiKey us) eqn:E; [done|]. by intros [= <-].
Qed.

Lemma sendMessageStream_ok message atts modelId key g :
  key ≠ [] →
  ∃ r, sendMessageStream message atts modelId key g
       = ((getChatSession modelId key g).1, inr r).
Proof.
  intros Hk. unfold sendMessageStream. destruct key as [|x key]; [done|].
  destruct (getChatSession modelId (x :: key) g) as [g' c]. eauto.
Qed.

Lemma updateCurrentMessages_lookup cur newMessages now st k s :
  truthy_id cur = true →
  sessions st !! k = Some s →
  sessions (updateCurrentMessages cur newMessages now st) !! k
  = Some (if id_is cur (s_id s)
          then mkChatSession (s_id s) (derive_title s newMessages) newMessages now
          else s).
Proof.
  intros Hc Hs. unfold updateCurrentMessages. rewrite Hc. cbn.
  by rewrite map_lookup, Hs.
Qed.

Lemma patchBot_lookup c f st k s :
  sessions st !! k = Some s →
  sessions (patchBot c f st) !! k
  = Some (if id_is (call_sessionId c) (s_id s)
          then set_messages s
                 (List.map (fun m => if str_eqb (m_id m) (botMessageId c)
                                     then f m else m) (messages s))
          else s).
Proof. intros H. cbn. by rewrite map_lookup, H. Qed.

(** A patch rewrites the placeholder where it stands. *)
Lemma patchBot_placeholder c f st k s i m :
  sessions st !! k = Some s →
  id_is (call_sessionId c) (s_id s) = true →
  messages s !! i = Some m →
  m_id m = botMessageId c →
  ∃ s', sessions (patchBot c f st) !! k = Some s'
        ∧ s_id s' = s_id s
        ∧ messages s' !! i = Some (f m).
Proof.
  intros Hs Hid Hm Hb. eexists. split; [by apply patchBot_lookup|].
  rewrite Hid. cbn. split; [done|].
  rewrite map_lookup, Hm. cbn.
  apply str_eqb_true in Hb. by rewrite Hb.
Qed.


(** The title is derived at most once: an update of a session that has
    messages keeps its title. *)
Lemma derive_title_nonempty s newMessages :
  messages s ≠ [] → derive_title s newMessages = title s.
Proof. unfold derive_title. by destruct (messages s). Qed.

(** ** Sending *)

Section SignedIn.

(** A render [snap] with a credential, and the arguments of a send
    made from it. *)
Variables (snap : AppState) (txt : jsstring) (a : SendArg) (clk : SendClock).
Variable key : jsstring.
Hypothesis Hkey : credential snap = Some key.

(** The session list after the synchronous part of [handleSend]: the
    sessions bearing the render's current id get the render's messages
    followed by the new user message and the placeholder. *)
Lemma handleSend_begin_lookup st k s :
  truthy_id (currentSessionId snap) = true →
  sessions st !! k = Some s →
  sessions (handleSend_begin snap txt a clk st).1 !! k
  = Some (if id_is (currentSessionId snap) (s_id s)
          then mkChatSession (s_id s)
                 (derive_title s
                    (currentMessages snap
                     ++ [userMessage txt a (t_user clk) (selectedModel snap)]))
                 ((currentMessages snap
                   ++ [userMessage txt a (t_user clk) (selectedModel snap)])
                  ++ [initialBotMessage (t_bot clk) (selectedModel snap)])
                 (t_upd2 clk)
          else s).
Proof.
  intros Hc Hs. unfold handleSend_begin. rewrite Hkey.
  set (u := userMessage _ _ _ _). set (b := initialBotMessage _ _).
  set (st1 := updateCurrentMessages _ (_ ++ [u]) _ _).
  set (st2 := updateCurrentMessages _ _ _ _).
  assert (sessions st2 !! k
          = Some (if id_is (currentSessionId snap) (s_id s)
                  then mkChatSession (s_id s)
                         (derive_title s (currentMessages snap ++ [u]))
                         ((currentMessages snap ++ [u]) ++ [b]) (t_upd2 clk)
                  else s)) as H2.
  { subst st2. erewrite updateCurrentMessages_lookup; [|done|].
    2:{ cbn. subst st1. erewrite updateCurrentMessages_lookup; done. }
    destruct (id_is (currentSessionId snap) (s_id s)) eqn:E; cbn.
    - rewrite E. f_equal. f_equal. apply derive_title_nonempty. cbn.
      by destruct (currentMessages snap).
    - by rewrite E. }
  destruct (sendMessageStream_ok txt (files_of a) (selectedModel snap) key
              (gemini st2) (credential_nonempty _ _ Hkey)) as [r ->].
  exact H2.
Qed.

(** The call that the send leaves awaiting the stream. *)
Lemma handleSend_begin_call st :
  (handleSend_begin snap txt a clk st).2
  = Some (mkSendCall (currentSessionId snap) (selectedModel snap)
            (toString (t_bot clk + 1)) [] 0).
Proof.
  unfold handleSend_begin. rewrite Hkey.
  match goal with |- context [sendMessageStream ?t ?f ?m ?k ?g] =>
    destruct (sendMessageStream_ok t f m k g (credential_nonempty _ _ Hkey))
      as [r ->] end.
  reflexivity.
Qed.

End SignedIn.

(** C8.  Without a credential (no settings, or an empty key) [handleSend]
    returns at once: the whole state, sessions and record of requests
    included, is unchanged and no call awaits a stream.  Independently,
    [sendMessageStream] given the empty key throws "API Key is
    required": the chat handle is untouched and no request is made. *)
Theorem send_requires_credential st txt a clk message atts modelId g :
  credential st = None →
  handleSend txt a clk st = (st, None)
  ∧ sendMessageStream message atts modelId [] g
    = (g, inl (lit "API Key is required")).
Proof.
  intros H. split; [|reflexivity].
  unfold handleSend, handleSend_begin. by rewrite H.
Qed.

Lemma send_requires_credential_witness :
  credential (initial_state ∅) = None
  ∧ handleSend (lit "hi") (Files []) (clock_at 2000) (initial_state ∅)
    = (initial_state ∅, None)
  ∧ sendMessageStream (lit "hi") [] gemini_2_5_flash [] Gemini_init
    = (Gemini_init, inl (lit "API Key is required")).
Proof.
  split; [reflexivity|].
  apply (send_requires_credential (initial_state ∅) (lit "hi") (Files [])
           (clock_at 2000) (lit "hi") [] gemini_2_5_flash Gemini_init).
  reflexivity.
Defined.

(** C10.  The second argument of [handleSend] is either the attachment
    list or the hidden flag.  On a signed-in page whose current session
    is in the list, the send appends to the render's messages a user
    message and the placeholder; given a boolean, the user message has
    that hidden flag and no attachment; given an array, it is not hidden
    and carries the array; so it is never both hidden and with
    attachments. *)
Theorem send_hidden_or_attachments st txt a clk key k s :
  credential st = Some key →
  truthy_id (currentSessionId st) = true →
  sessions st !! k = Some s →
  id_is (currentSessionId st) (s_id s) = true →
  ∃ s' u b,
    sessions (handleSend txt a clk st).1 !! k = Some s'
    ∧ messages s' = currentMessages st ++ [u; b]
    ∧ role u = user ∧ text u = txt
    ∧ role b = model ∧ isStreaming b = Some true
    ∧ (∀ h, a = Hidden h → isHidden u = Some h ∧ attachments u = Some [])
    ∧ (∀ l, a = Files l → isHidden u = Some false ∧ attachments u = Some l)
    ∧ ¬ (isHidden u = Some true ∧ attachments u ≠ Some []).
Proof.
  intros Hk Hc Hs Hid.
  eexists _, (userMessage txt a (t_user clk) (selectedModel st)),
    (initialBotMessage (t_bot clk) (selectedModel st)).
  split.
  { unfold handleSend.
    rewrite (handleSend_begin_lookup st txt a clk key Hk st k s Hc Hs).
    rewrite Hid. reflexivity. }
  cbn. split; [by rewrite <- app_assoc|].
  split_and!; try done.
  - by intros h ->.
  - by intros l ->.
  - destruct a; cbn; intros [??]; congruence.
Qed.

Lemma send_hidden_or_attachments_witness :
  ∃ s' u b,
    sessions (handleSend (lit "quiz") (Hidden true) (clock_at 3000)
                (page_with (lit "hi") [hello_user; hello_model])).1 !! 0%nat
    = Some s'
    ∧ messages s' = [hello_user; hello_model; u; b]
    ∧ isHidden u = Some true ∧ attachments u = Some [].
Proof.
  destruct (send_hidden_or_attachments
              (page_with (lit "hi") [hello_user; hello_model])
              (lit "quiz") (Hidden true) (clock_at 3000) (lit "AIzaKEY") 0
              (mkChatSession (lit "1000") (lit "hi") [hello_user; hello_model] 1000))
    as (s' & u & b & H1 & H2 & _ & _ & _ & _ & H3 & _);
    [reflexivity | reflexivity | reflexivity | reflexivity |].
  exists s', u, b. split; [exact H1|]. split; [exact H2|].
  exact (H3 true eq_refl).
Defined.



(** C9.  [handleImport] checks only that the parsed value is an array:
    any array, whatever its elements, replaces the stored sessions
    document and a reload is asked for, without a notice; a text that
    does not parse, or a value that is not an array, leaves the store
    as it was, asks for no reload and shows one notice.  Without a
    selected file nothing happens. *)
Theorem import_validates_array_only selected st :
  match selected with
  | Some content =>
      match JSON_parse content with
      | Some (JArr l) =>
          localStorage (handleImport selected st)
            = <[sessions_key := JSON_stringify (JArr l)]> (localStorage st)
          ∧ reloads (handleImport selected st) = S (reloads st)
          ∧ alerts (handleImport selected st) = alerts st
      | _ =>
          localStorage (handleImport selected st) = localStorage st
          ∧ reloads (handleImport selected st) = reloads st
          ∧ ∃ notice, alerts (handleImport selected st) = notice :: alerts st
      end
  | None => handleImport selected st = st
  end.
Proof.
  destruct selected as [[v|raw]|]; cbn; [|eauto|done].
  destruct v; cbn; eauto.
Qed.

(** ** Titles *)

(** C4, as the code has it.  When [updateCurrentMessages] gives messages
    to a session that had none and whose title is the default one, the
    new title comes from the first message of role user, hidden or not:
    its first 30 code units followed by "..." when its text is longer
    than 30, its text unchanged otherwise. *)
Theorem title_from_first_user_message cur newMessages now st k s pre firstMsg post :
  truthy_id cur = true →
  sessions st !! k = Some s →
  id_is cur (s_id s) = true →
  messages s = [] →
  title s = default_title →
  newMessages = pre ++ firstMsg :: post →
  Forall (fun m => role m ≠ user) pre →
  role firstMsg = user →
  ∃ s',
    sessions (updateCurrentMessages cur newMessages now st) !! k = Some s'
    ∧ messages s' = newMessages
    ∧ title s' = if (30 <? length (text firstMsg))%nat
                 then take 30 (text firstMsg) ++ lit "..."
                 else text firstMsg.
Proof.
  intros Hc Hs Hid Hm Ht -> Hpre Hu.
  eexists. split; [by apply updateCurrentMessages_lookup|].
  rewrite Hid. cbn [messages title]. split; [done|].
  unfold derive_title. rewrite Hm, Ht.
  replace (includes default_title (lit "New Chat")) with true by reflexivity.
  replace (0 <? length (pre ++ firstMsg :: post))%nat with true.
  2:{ symmetry. apply Nat.ltb_lt. rewrite length_app. cbn. lia. }
  cbn [length Nat.eqb andb].
  rewrite find_first.
  - unfold slice0. destruct (30 <? length (text firstMsg))%nat eqn:E; [done|].
    rewrite app_nil_r. apply take_ge. apply Nat.ltb_ge in E. lia.
  - eapply Forall_impl; [exact Hpre|]. intros m Hr. cbn in Hr.
    by apply bool_decide_eq_false_2.
  - by apply bool_decide_eq_true_2.
Qed.

Lemma title_from_first_user_message_witness :
  ∃ s',
    sessions (updateCurrentMessages (Some (lit "1000"))
                [secret_user; visible_user] 2000 (page_with default_title []))
      !! 0%nat = Some s'
    ∧ title s' = lit "secret".
Proof.
  destruct (title_from_first_user_message (Some (lit "1000"))
              [secret_user; visible_user] 2000 (page_with default_title []) 0
              (mkChatSession (lit "1000") default_title [] 1000)
              [] secret_user [visible_user])
    as (s' & H1 & _ & H2);
    [reflexivity | reflexivity | reflexivity | reflexivity | reflexivity
    | reflexivity | constructor | reflexivity |].
  exists s'. split; [exact H1 | exact H2].
Defined.

(** C4 as stated fails: with a hidden user message first and a visible
    one after it, the title comes from the hidden one, not from the
    first message of role user that is not hidden. *)
Lemma title_ignores_hidden_flag :
  ∃ s' m,
    sessions (updateCurrentMessages (Some (lit "1000"))
                [secret_user; visible_user] 2000 (page_with default_title []))
      !! 0%nat = Some s'
    ∧ List.find (fun m => bool_decide (role m = user) && rendered m)
        [secret_user; visible_user] = Some m
    ∧ title s' ≠ (if (30 <? length (text m))%nat
                  then take 30 (text m) ++ lit "..."
                  else text m).
Proof.
  eexists _, visible_user. split; [reflexivity|]. split; [reflexivity|].
  vm_compute. discriminate.
Qed.

(** ** Deleting a session *)

Lemma deleteSession_storage id t_id t_upd st :
  localStorage (deleteSession id t_id t_upd st)
  = <[sessions_key :=
        JSON_stringify
          (json_of_sessions
             (List.filter (fun s => negb (str_eqb (s_id s) id)) (sessions st)))]>
      (localStorage st).
Proof.
  unfold deleteSession.
  destruct (id_is (currentSessionId st) id); [|done].
  by destruct (List.filter _ _).
Qed.

(** C6, as the code has it.  [deleteSession id] keeps, in order, the
    sessions whose id differs from [id] and writes that list to the
    store itself, before any effect runs.  When the deleted session was
    the current one: if sessions remain, the first of them in list order
    becomes current; if none remains, the list becomes one new session
    with no messages and the default title, and it becomes current.
    When another session was current, it stays current. *)
Theorem delete_session_selects_first_remaining id t_id t_upd st :
  let rest := List.filter (fun s => negb (str_eqb (s_id s) id)) (sessions st) in
  let st' := deleteSession id t_id t_upd st in
  (∀ s, In s rest ↔ In s (sessions st) ∧ s_id s ≠ id)
  ∧ localStorage st' !! sessions_key
    = Some (JSON_stringify (json_of_sessions rest))
  ∧ if bool_decide (currentSessionId st = Some id)
    then match rest with
         | s :: _ => sessions st' = rest ∧ currentSessionId st' = Some (s_id s)
         | [] =>
             sessions st' = [mkChatSession (toString t_id) default_title [] t_upd]
             ∧ currentSessionId st' = Some (toString t_id)
         end
    else sessions st' = rest ∧ currentSessionId st' = currentSessionId st.
Proof.
  intros rest st'. split_and!.
  - intros s. subst rest. rewrite filter_In, negb_true_iff.
    unfold str_eqb. rewrite bool_decide_eq_false. done.
  - subst st'. rewrite deleteSession_storage. apply lookup_insert_eq.
  - subst st'. unfold deleteSession. fold rest.
    destruct (currentSessionId st) as [c|] eqn:Ec; cbn.
    + unfold str_eqb. destruct (decide (id = c)) as [->|Hne].
      * rewrite !bool_decide_eq_true_2 by done. by destruct rest.
      * rewrite !bool_decide_eq_false_2 by congruence. by split.
    + rewrite bool_decide_eq_false_2 by done. by split.
Qed.

(** C6 as stated fails: after a page load on [two_stored] and the
    events of [touch_then_delete_new], deleting the current session
    makes current a session that was created before, and last updated
    before, another session that remains. *)
Lemma delete_session_not_most_recent :
  ∃ st0 w active another,
    boot two_stored 0 0 = Some st0
    ∧ run (mkWorld st0 []) touch_then_delete_new = Some w
    ∧ currentSession (app w) = Some active
    ∧ In another (sessions (app w))
    ∧ s_id active = toString 1000 ∧ s_id another = toString 2000
    ∧ updatedAt active < updatedAt another.
Proof.
  eexists _, _, _, (mkChatSession (lit "2000") (lit "second!") [] 6000).
  split; [evaluated|].
  split; [evaluated|].
  split; [evaluated|].
  split; [vm_compute; tauto|].
  split; [reflexivity|]. split; [reflexivity|]. reflexivity.
Qed.

(** ** Resending *)

(** C1, what the code does.  [handleResend] queues the truncated list,
    but the [handleSend] it then calls belongs to the same render: its
    [messages] is still the whole list, and the update it queues
    replaces the truncated one.  On a signed-in page whose current
    session is in the list, resending message [index] leaves the session
    with every message it had, those from [index] onward included,
    followed by the new user message and the placeholder. *)
Theorem resend_keeps_every_message st index t_trunc clk key k s msg :
  credential st = Some key →
  truthy_id (currentSessionId st) = true →
  sessions st !! k = Some s →
  id_is (currentSessionId st) (s_id s) = true →
  currentMessages st !! index = Some msg →
  ∃ s',
    sessions (handleResend index t_trunc clk st).1 !! k = Some s'
    ∧ messages s'
      = currentMessages st
        ++ [userMessage (text msg) (Files (default [] (attachments msg)))
              (t_user clk) (selectedModel st);
            initialBotMessage (t_bot clk) (selectedModel st)].
Proof.
  intros Hk Hc Hs Hid Hmsg. unfold handleResend. rewrite Hmsg.
  eexists. split.
  - exact (handleSend_begin_lookup st _ _ clk key Hk _ k _ Hc
             (updateCurrentMessages_lookup _ _ _ st k s Hc Hs)).
  - rewrite Hid. cbn [s_id]. rewrite Hid. cbn [messages].
    by rewrite <- app_assoc.
Qed.

Lemma resend_keeps_every_message_witness :
  ∃ s',
    sessions (handleResend 0 3000 (clock_at 3000)
                (page_with (lit "hi") [hello_user; hello_model])).1 !! 0%nat
    = Some s'
    ∧ messages s'
      = [hello_user; hello_model;
         userMessage (lit "hi") (Files []) 3000 gemini_3_pro_preview;
         initialBotMessage 3000 gemini_3_pro_preview].
Proof.
  exact (resend_keeps_every_message
           (page_with (lit "hi") [hello_user; hello_model]) 0 3000
           (clock_at 3000) (lit "AIzaKEY") 0
           (mkChatSession (lit "1000") (lit "hi") [hello_user; hello_model] 1000)
           hello_user eq_refl eq_refl eq_refl eq_refl eq_refl).
Defined.

(** ** Ending a stream *)

Lemma handleSend_final_placeholder c st k s i m :
  sessions st !! k = Some s →
  id_is (call_sessionId c) (s_id s) = true →
  messages s !! i = Some m →
  m_id m = botMessageId c →
  ∃ s' m',
    sessions (handleSend_final c st) !! k = Some s'
    ∧ messages s' !! i = Some m'
    ∧ isStreaming m' = Some false
    ∧ text m' = fullText c.
Proof.
  intros Hs Hid Hm Hb. unfold handleSend_final.
  destruct (patchBot_placeholder c (fun m => finalize m (fullText c)) st k s i m)
    as (s' & Hs' & _ & Hm'); try done.
  by exists s', (finalize m (fullText c)).
Qed.

Lemma handleSend_catch_placeholder c message st k s i m :
  sessions st !! k = Some s →
  id_is (call_sessionId c) (s_id s) = true →
  messages s !! i = Some m →
  m_id m = botMessageId c →
  ∃ s' m',
    sessions (handleSend_catch c message st) !! k = Some s'
    ∧ messages s' !! i = Some m'
    ∧ isStreaming m' = Some false
    ∧ error m' = Some true.
Proof.
  intros Hs Hid Hm Hb. unfold handleSend_catch.
  destruct (isQuotaError message && _).
  - destruct (patchBot_placeholder c (fun m => fail_with m quota_notice)
                (setSelectedModel gemini_2_5_flash st) k s i m)
      as (s' & Hs' & _ & Hm'); try done.
    by exists s', (fail_with m quota_notice).
  - destruct (patchBot_placeholder c
                (fun m => fail_with m (connection_error_text (text m) message))
                st k s i m) as (s' & Hs' & _ & Hm'); try done.
    by exists s', (fail_with m (connection_error_text (text m) message)).
Qed.

(** Every way a call can end leaves its placeholder not streaming. *)
Lemma stopped_call_ends c ev st k s i m :
  stopGenerationRef st = true →
  sessions st !! k = Some s →
  id_is (call_sessionId c) (s_id s) = true →
  messages s !! i = Some m →
  m_id m = botMessageId c →
  ∃ st' s' m',
    handleSend_event c ev st = (st', None)
    ∧ isLoading st' = false
    ∧ sessions st' !! k = Some s'
    ∧ messages s' !! i = Some m'
    ∧ isStreaming m' = Some false.
Proof.
  intros Hstop Hs Hid Hm Hb. destruct ev as [t now| |message]; cbn.
  - rewrite Hstop.
    destruct (handleSend_final_placeholder c st k s i m)
      as (s' & m' & ? & ? & ? & _); try done.
    by exists (handleSend_final c st), s', m'.
  - destruct (handleSend_final_placeholder c st k s i m)
      as (s' & m' & ? & ? & ? & _); try done.
    by exists (handleSend_final c st), s', m'.
  - destruct (handleSend_catch_placeholder c message st k s i m)
      as (s' & m' & ? & ? & ? & _); try done.
    by exists (handleSend_catch c message st), s', m'.
Qed.

(** What stop does at once.  When [handleStop] runs while a call's
    placeholder is streaming in the current session, the placeholder is
    set to [isStreaming = false] with "..." appended to the text it
    shows, which is the buffer as last patched into it; the cancellation
    flag is set and the loading flag cleared.  If the next thing to
    happen is an event of that call's stream, it ends the call, and the
    placeholder is then still not streaming. *)
Theorem stop_finalizes_placeholder st c k s i m :
  truthy_id (currentSessionId st) = true →
  call_sessionId c = currentSessionId st →
  sessions st !! k = Some s →
  id_is (currentSessionId st) (s_id s) = true →
  messages s !! i = Some m →
  m_id m = botMessageId c →
  isStreaming m = Some true →
  stopGenerationRef (handleStop st) = true
  ∧ isLoading (handleStop st) = false
  ∧ (∃ s1 m1,
       sessions (handleStop st) !! k = Some s1
       ∧ messages s1 !! i = Some m1
       ∧ isStreaming m1 = Some false
       ∧ text m1 = text m ++ lit "...")
  ∧ ∀ ev, ∃ st2 s2 m2,
      handleSend_event c ev (handleStop st) = (st2, None)
      ∧ sessions st2 !! k = Some s2
      ∧ messages s2 !! i = Some m2
      ∧ isStreaming m2 = Some false.
Proof.
  intros Hc Hcall Hs Hid Hm Hb Hstr.
  assert (sessions (handleStop st) !! k
          = Some (set_messages s
                    (List.map (fun msg =>
                       if truthy (isStreaming msg)
                       then finalize msg (text msg ++ lit "...")
                       else msg) (messages s)))) as Hs1.
  { unfold handleStop. rewrite Hc.
    cbn [sessions setSessions setIsLoading setStopGeneration].
    rewrite map_lookup, Hs. cbn [fmap option_fmap option_map].
    by rewrite Hid. }
  assert (messages (set_messages s
                      (List.map (fun msg =>
                         if truthy (isStreaming msg)
                         then finalize msg (text msg ++ lit "...")
                         else msg) (messages s))) !! i
          = Some (finalize m (text m ++ lit "..."))) as Hm1.
  { cbn [messages set_messages]. rewrite map_lookup, Hm.
    cbn [fmap option_fmap option_map]. by rewrite Hstr. }
  assert (stopGenerationRef (handleStop st) = true) as Hflag.
  { unfold handleStop. by destruct (truthy_id _). }
  split_and!.
  - done.
  - unfold handleStop. by destruct (truthy_id _).
  - by eexists _, _.
  - intros ev.
    destruct (stopped_call_ends c ev (handleStop st) k _ i
                (finalize m (text m ++ lit "...")) Hflag Hs1)
      as (st2 & s2 & m2 & ? & _ & ? & ? & ?); [by rewrite Hcall|done|done|].
    by exists st2, s2, m2.
Qed.

Lemma stop_finalizes_placeholder_witness :
  ∃ s1 m1,
    sessions (handleStop streaming_page) !! 0%nat = Some s1
    ∧ messages s1 !! 1%nat = Some m1
    ∧ isStreaming m1 = Some false
    ∧ text m1 = text placeholder ++ lit "...".
Proof.
  destruct (stop_finalizes_placeholder streaming_page pro_call 0
              (mkChatSession (lit "1000") (lit "hi") [hello_user; placeholder] 1000)
              1 placeholder)
    as (_ & _ & H & _);
    [reflexivity | reflexivity | reflexivity | reflexivity | reflexivity
    | reflexivity | reflexivity |].
  exact H.
Defined.

Lemma handleStop_flag st : stopGenerationRef (handleStop st) = true.
Proof. unfold handleStop. by destruct (truthy_id _). Qed.

(** [handleStop] leaves every message where it is, under its id. *)
Lemma handleStop_lookup st k s i m :
  sessions st !! k = Some s →
  messages s !! i = Some m →
  ∃ s1 m1,
    sessions (handleStop st) !! k = Some s1
    ∧ s_id s1 = s_id s
    ∧ messages s1 !! i = Some m1
    ∧ m_id m1 = m_id m.
Proof.
  intros Hs Hm. unfold handleStop.
  destruct (truthy_id (currentSessionId st)).
  - cbn [sessions setSessions setIsLoading setStopGeneration].
    rewrite map_lookup, Hs. cbn [fmap option_fmap option_map].
    destruct (id_is (currentSessionId st) (s_id s)).
    + eexists _, _. split; [reflexivity|]. split; [done|].
      cbn [messages set_messages]. rewrite map_lookup, Hm.
      cbn [fmap option_fmap option_map]. split; [reflexivity|].
      by destruct (truthy (isStreaming m)).
    + by exists s, m.
  - by exists s, m.
Qed.

(** C2, what the code does.  [handleStop] appends "..." to the text of
    the streaming placeholder, but the stopped call still runs its final
    update: at the next chunk or at the end of its stream it sets the
    placeholder's text to its buffer alone.  Whatever session is
    current, the placeholder then ends not streaming and with the
    buffer as text, which is never the buffer followed by the marker. *)
Theorem stop_marker_dropped_by_final_update st c k s i m ev :
  sessions st !! k = Some s →
  id_is (call_sessionId c) (s_id s) = true →
  messages s !! i = Some m →
  m_id m = botMessageId c →
  ev = stream_end ∨ (∃ t now, ev = chunk t now) →
  ∃ st2 s2 m2,
    handleSend_event c ev (handleStop st) = (st2, None)
    ∧ isLoading st2 = false
    ∧ sessions st2 !! k = Some s2
    ∧ messages s2 !! i = Some m2
    ∧ isStreaming m2 = Some false
    ∧ text m2 = fullText c
    ∧ text m2 ≠ fullText c ++ lit "...".
Proof.
  intros Hs Hid Hm Hb Hev.
  destruct (handleStop_lookup st k s i m Hs Hm) as (s1 & m1 & Hs1 & Hid1 & Hm1 & Hb1).
  destruct (handleSend_final_placeholder c (handleStop st) k s1 i m1)
    as (s2 & m2 & A1 & A2 & A3 & A4); try done.
  { by rewrite Hid1. }
  { by rewrite Hb1. }
  exists (handleSend_final c (handleStop st)), s2, m2.
  split_and!; try done.
  - destruct Hev as [->|(t & now & ->)]; cbn; [done|].
    by rewrite handleStop_flag.
  - rewrite A4. intros H. apply (f_equal length) in H.
    rewrite length_app in H. cbn in H. lia.
Qed.

Lemma stop_marker_dropped_by_final_update_witness :
  ∃ st2 s2 m2,
    handleSend_event pro_call stream_end (handleStop streaming_page) = (st2, None)
    ∧ sessions st2 !! 0%nat = Some s2
    ∧ messages s2 !! 1%nat = Some m2
    ∧ isStreaming m2 = Some false
    ∧ text m2 = fullText pro_call.
Proof.
  destruct (stop_marker_dropped_by_final_update streaming_page pro_call 0
              (mkChatSession (lit "1000") (lit "hi") [hello_user; placeholder] 1000)
              1 placeholder stream_end)
    as (st2 & s2 & m2 & H1 & _ & H2 & H3 & H4 & H5 & _);
    [reflexivity | reflexivity | reflexivity | reflexivity | by left |].
  by exists st2, s2, m2.
Defined.

(** The same on a run of page events: after "hi" was sent and the
    chunk "a" received, stop is pressed and the stream ends; the call's
    final update then sets the placeholder's text to the buffer alone,
    so it ends without the marker. *)
Lemma stop_marker_overwritten :
  ∃ w1 c w2 s m,
    run first_load send_chunk = Some w1
    ∧ calls w1 !! 0%nat = Some c
    ∧ run w1 stop_then_end = Some w2
    ∧ calls w2 = []
    ∧ sessions (app w2) !! 0%nat = Some s
    ∧ messages s !! 1%nat = Some m
    ∧ m_id m = botMessageId c
    ∧ isStreaming m = Some false
    ∧ text m ≠ fullText c ++ lit "...".
Proof.
  eexists _, _, _, _, _.
  split; [evaluated|].
  split; [evaluated|].
  split; [evaluated|].
  split; [reflexivity|].
  split; [evaluated|].
  split; [evaluated|].
  split; [reflexivity|]. split; [reflexivity|].
  vm_compute. discriminate.
Qed.

(** A send made after stop clears the cancellation flag that the
    stopped call has not yet looked at: a late chunk of the first stream
    is then taken as if stop had not been pressed.  The first call goes
    on awaiting, and its chunk replaces the marked text. *)
Lemma stopped_call_resumes_after_send :
  ∃ w1 w2 c s m,
    run first_load send_chunk = Some w1
    ∧ run w1 stop_send_late_chunk = Some w2
    ∧ calls w2 !! 0%nat = Some c
    ∧ fullText c = lit "ab"
    ∧ sessions (app w2) !! 0%nat = Some s
    ∧ messages s !! 1%nat = Some m
    ∧ m_id m = botMessageId c
    ∧ text m = lit "ab".
Proof.
  eexists _, _, _, _, _.
  split; [evaluated|].
  split; [evaluated|].
  split; [evaluated|].
  split; [reflexivity|].
  split; [evaluated|].
  split; [evaluated|].
  split; reflexivity.
Qed.

(** ** Streaming messages of a session *)

(** C7, what the code does.  The action buttons and resend stay on
    offer while an answer streams, and the send they start appends a
    second placeholder behind the first: after [action_while_streaming]
    on a first page load, the session holds two messages marked as
    streaming. *)
Theorem two_streaming_messages_reachable :
  ∃ w s,
    run first_load action_while_streaming = Some w
    ∧ reachable w
    ∧ In s (sessions (app w))
    ∧ streaming_count s = 2%nat
    ∧ one_stream s = false.
Proof.
  eexists _, _.
  split; [evaluated|].
  split.
  { exists ∅, 1000, 1000, (app first_load), action_while_streaming.
    split; [reflexivity|]. vm_compute. reflexivity. }
  split; [left; reflexivity|].
  split; reflexivity.
Qed.

(** ** JSON round trips *)

Lemma read_all_map {A} (rd : json → option A) (enc : A → json) (cl : A → A)
    (l : list A) :
  (∀ x, rd (enc x) = Some (cl x)) →
  read_all rd (List.map enc l) = Some (List.map cl l).
Proof.
  intros H. induction l as [|x l IH]; [done|].
  cbn. by rewrite H, IH.
Qed.

Lemma Attachment_roundtrip a :
  Attachment_of_json (json_of_Attachment a) = Some (clone_Attachment a).
Proof. by destruct a as [f p [] [b|]]. Qed.

Lemma Message_roundtrip m :
  Message_of_json (json_of_Message m) = Some (clone_Message m).
Proof.
  destruct m as [i r t st e h a mo].
  destruct a as [l|].
  - transitivity
      (a ← Some <$> read_all Attachment_of_json (List.map json_of_Attachment l);
       Some (mkMessage i r t st e h a mo)).
    + destruct r, st, e, h, mo as [[]|]; vm_compute; reflexivity.
    + by rewrite (read_all_map _ _ _ _ Attachment_roundtrip).
  - destruct r, st, e, h, mo as [[]|]; vm_compute; reflexivity.
Qed.

Lemma ChatSession_roundtrip s :
  ChatSession_of_json (json_of_ChatSession s) = Some (clone_ChatSession s).
Proof.
  destruct s as [i t ms u].
  transitivity
    (xs ← read_all Message_of_json (List.map json_of_Message ms);
     Some (mkChatSession i t xs u)).
  - vm_compute; reflexivity.
  - by rewrite (read_all_map _ _ _ _ Message_roundtrip).
Qed.

Lemma sessions_roundtrip l :
  sessions_of_json (json_of_sessions l) = Some (List.map clone_ChatSession l).
Proof. apply (read_all_map _ _ _ _ ChatSession_roundtrip). Qed.

Lemma UserSettings_roundtrip u :
  UserSettings_of_json (json_of_UserSettings u) = Some u.
Proof. by destruct u. Qed.

(** ** Sorting on load *)

Lemma sort_insert_clone x l :
  sort_insert (clone_ChatSession x) (List.map clone_ChatSession l)
  = List.map clone_ChatSession (sort_insert x l).
Proof.
  induction l as [|y l IH]; [done|].
  cbn [List.map sort_insert]. unfold comparefn.
  cbn [updatedAt clone_ChatSession].
  destruct (0 <? updatedAt y - updatedAt x); cbn [List.map]; [|done].
  by rewrite IH.
Qed.

Lemma Array_sort_clone l :
  Array_sort (List.map clone_ChatSession l)
  = List.map clone_ChatSession (Array_sort l).
Proof.
  induction l as [|x l IH]; [done|].
  cbn. fold (Array_sort (List.map clone_ChatSession l)) (Array_sort l).
  by rewrite IH, sort_insert_clone.
Qed.

Lemma sort_insert_Permutation x l : sort_insert x l ≡ₚ x :: l.
Proof.
  induction l as [|y l IH]; [done|].
  cbn. destruct (0 <? comparefn x y); [|done].
  rewrite IH. apply Permutation_swap.
Qed.

Lemma Array_sort_Permutation l : Array_sort l ≡ₚ l.
Proof.
  induction l as [|x l IH]; [done|].
  cbn. fold (Array_sort l). by rewrite sort_insert_Permutation, IH.
Qed.

Lemma sort_insert_HdRel a x l :
  newer_first a x → HdRel newer_first a l → HdRel newer_first a (sort_insert x l).
Proof.
  intros Hax Hl. destruct l as [|y l]; cbn; [by constructor|].
  inversion_clear Hl. by destruct (0 <? comparefn x y); constructor.
Qed.

Lemma sort_insert_Sorted x l :
  Sorted newer_first l → Sorted newer_first (sort_insert x l).
Proof.
  induction 1 as [|y l Hl IH Hy]; cbn; [by repeat constructor|].
  destruct (0 <? comparefn x y) eqn:E.
  - constructor; [done|]. apply sort_insert_HdRel; [|done].
    apply Z.ltb_lt in E. unfold comparefn in E. unfold newer_first. lia.
  - constructor; [by constructor|]. constructor.
    apply Z.ltb_ge in E. unfold comparefn in E. unfold newer_first. lia.
Qed.

Lemma Array_sort_Sorted l : Sorted newer_first (Array_sort l).
Proof.
  induction l as [|x l IH]; [constructor|].
  cbn. fold (Array_sort l). by apply sort_insert_Sorted.
Qed.

(** A list already in the order that loading gives is left as it is,
    sessions with equal [updatedAt] included. *)
Lemma Array_sort_id l : Sorted newer_first l → Array_sort l = l.
Proof.
  induction 1 as [|x l Hl IH Hx]; [done|].
  cbn. fold (Array_sort l). rewrite IH.
  destruct Hx as [|y l' Hxy]; [done|]. cbn.
  replace (0 <? comparefn x y) with false; [done|].
  symmetry. apply Z.ltb_ge. unfold comparefn. unfold newer_first in Hxy. lia.
Qed.

Lemma outline_clone l : outline (List.map clone_ChatSession l) = outline l.
Proof.
  unfold outline. rewrite List.map_map. apply List.map_ext.
  intros s. cbn. by rewrite List.map_map.
Qed.

(** ** Export and import *)

(** Loading the settings reads one key only. *)
Lemma loadSettings_other_key ls v :
  is_Some (loadSettings (initial_state ls)) →
  ∃ o, loadSettings (initial_state (<[sessions_key := v]> ls))
       = Some (setUserSettings o (initial_state (<[sessions_key := v]> ls))).
Proof.
  unfold loadSettings. cbn [localStorage initial_state].
  rewrite lookup_insert_ne by done.
  destruct (ls !! settings_key) as [[v'|raw]|]; cbn [JSON_parse].
  - destruct (UserSettings_of_json v') as [u|]; cbn.
    + intros _. by exists (Some u).
    + by intros [x Hx].
  - intros _. by exists None.
  - intros _. by exists None.
Qed.

(** The page load that follows the import of an exported list. *)
Lemma export_import_sessions t_id t_upd st :
  settings_readable st →
  sessions st ≠ [] →
  ∃ st', export_import t_id t_upd st = Some st'
         ∧ sessions st' = List.map clone_ChatSession (Array_sort (sessions st)).
Proof.
  intros Hs Hne. unfold export_import, handleExport, handleImport.
  cbn [JSON_parse JSON_stringify json_of_sessions Array_isArray].
  cbn [localStorage location_reload setLocalStorage].
  unfold boot.
  destruct (loadSettings_other_key (localStorage st)
              (JSON_stringify (json_of_sessions (sessions st))) Hs) as [o ->].
  cbn [mbind option_bind]. unfold loadSessions.
  cbn [localStorage setUserSettings initial_state].
  rewrite lookup_insert_eq. unfold JSON_stringify, json_of_sessions.
  cbn [JSON_parse].
  rewrite (read_all_map _ _ _ _ ChatSession_roundtrip). cbn [mbind option_bind].
  rewrite Array_sort_clone.
  destruct (Array_sort (sessions st)) as [|x l] eqn:E.
  { exfalso. apply Hne. apply Permutation_nil_r. rewrite <- E.
    symmetry. apply Array_sort_Permutation. }
  eexists. split; [reflexivity|].
  cbn [List.map]. unfold autoSave. cbn [sessions setCurrentSessionId setSessions length].
  reflexivity.
Qed.

(** C5, as the code has it.  Exporting a non-empty session list and
    importing the exported file, with the page load that the import asks
    for, gives the same sessions, each with its id and with its
    messages' ids and texts in the same order, arranged by [updatedAt]
    descending; the list is the exported one, order included, when that
    one was already so arranged. *)
Theorem export_import_sorts_sessions t_id t_upd st :
  settings_readable st →
  sessions st ≠ [] →
  ∃ st' sorted,
    export_import t_id t_upd st = Some st'
    ∧ outline (sessions st') = outline sorted
    ∧ sorted ≡ₚ sessions st
    ∧ Sorted newer_first sorted
    ∧ (Sorted newer_first (sessions st) → sorted = sessions st).
Proof.
  intros Hs Hne.
  destruct (export_import_sessions t_id t_upd st Hs Hne) as (st' & H1 & H2).
  exists st', (Array_sort (sessions st)). split_and!.
  - done.
  - rewrite H2. apply outline_clone.
  - apply Array_sort_Permutation.
  - apply Array_sort_Sorted.
  - apply Array_sort_id.
Qed.

Lemma export_import_sorts_sessions_witness :
  ∃ st' sorted,
    export_import 9000 9000 older_used_last = Some st'
    ∧ outline (sessions st') = outline sorted
    ∧ sorted ≡ₚ sessions older_used_last
    ∧ Sorted newer_first sorted.
Proof.
  destruct (export_import_sorts_sessions 9000 9000 older_used_last)
    as (st' & sorted & H1 & H2 & H3 & H4 & _);
    [eexists; reflexivity | discriminate |].
  by exists st', sorted.
Defined.

(** C5 as stated fails: after [use_older_session] the session at the
    head of the list is not the one updated last, and exporting then
    importing that list swaps the two sessions. *)
Lemma export_import_changes_order :
  ∃ w st',
    run first_load use_older_session = Some w
    ∧ export_import 9000 9000 (app w) = Some st'
    ∧ List.map s_id (sessions (app w)) = [lit "2000"; lit "1000"]
    ∧ List.map s_id (sessions st') = [lit "1000"; lit "2000"]
    ∧ outline (sessions st') ≠ outline (sessions (app w)).
Proof.
  eexists _, _.
  split; [evaluated|].
  split; [evaluated|].
  split; [evaluated|].
  split; [evaluated|].
  vm_compute. discriminate.
Qed.

(** ** One streaming message per session, when sends wait their turn *)

Lemma count_map_le {A} (p : A → bool) (g : A → A) (l : list A) :
  (∀ x, p (g x) = true → p x = true) →
  (length (List.filter p (List.map g l)) ≤ length (List.filter p l))%nat.
Proof.
  intros H. induction l as [|x l IH]; cbn; [lia|].
  destruct (p (g x)) eqn:E.
  - rewrite (H x E). cbn. lia.
  - destruct (p x); cbn; lia.
Qed.

Lemma count_filter_index_le {A} (p : A → bool) (q : nat → bool) (i : nat)
    (l : list A) :
  (length (List.filter p (filter_index q i l)) ≤ length (List.filter p l))%nat.
Proof.
  revert i. induction l as [|x l IH]; intros i; cbn; [lia|].
  specialize (IH (S i)). destruct (q i); cbn; destruct (p x); cbn; lia.
Qed.

Lemma count_take_le {A} (p : A → bool) (n : nat) (l : list A) :
  (length (List.filter p (take n l)) ≤ length (List.filter p l))%nat.
Proof.
  revert n. induction l as [|x l IH]; intros [|n]; cbn; try lia.
  specialize (IH n). destruct (p x); cbn; lia.
Qed.

Lemma count_none {A} (p : A → bool) (l : list A) :
  Forall (fun x => p x = false) l → List.filter p l = [].
Proof. induction 1 as [|x l Hx _ IH]; cbn; [done|]. by rewrite Hx. Qed.

Lemma one_stream_le s s' :
  (streaming_count s' ≤ streaming_count s)%nat →
  one_stream s = true → one_stream s' = true.
Proof. unfold one_stream. rewrite !Nat.leb_le. lia. Qed.

Lemma all_one_stream_map (F : ChatSession → ChatSession) st st' :
  sessions st' = List.map F (sessions st) →
  (∀ s, In s (sessions st) → one_stream s = true → one_stream (F s) = true) →
  all_one_stream st → all_one_stream st'.
Proof.
  unfold all_one_stream. intros -> HF H.
  apply List.Forall_map. rewrite List.Forall_forall in *. auto.
Qed.

Lemma currentMessages_count st :
  all_one_stream st →
  (length (List.filter (fun m => truthy (isStreaming m)) (currentMessages st)) ≤ 1)%nat.
Proof.
  unfold all_one_stream, currentMessages, currentSession. intros H.
  destruct (List.find _ _) as [s|] eqn:E; cbn; [|lia].
  apply List.find_some in E as [E _].
  rewrite List.Forall_forall in H. specialize (H s E).
  by apply Nat.leb_le in H.
Qed.

Lemma updateCurrentMessages_one_stream cur newMessages now st :
  (length (List.filter (fun m => truthy (isStreaming m)) newMessages) ≤ 1)%nat →
  all_one_stream st →
  all_one_stream (updateCurrentMessages cur newMessages now st).
Proof.
  intros Hn H. unfold updateCurrentMessages.
  destruct (truthy_id cur); cbn [negb]; [|done].
  eapply all_one_stream_map; [reflexivity| |done].
  intros s _ Hs. cbn beta. destruct (id_is cur (s_id s)); [|done].
  unfold one_stream, streaming_count. cbn [messages]. by apply Nat.leb_le.
Qed.

Lemma patchBot_one_stream c g st :
  (∀ m, truthy (isStreaming (g m)) = true → truthy (isStreaming m) = true) →
  all_one_stream st → all_one_stream (patchBot c g st).
Proof.
  intros Hg. apply all_one_stream_map with
    (F := fun s => if id_is (call_sessionId c) (s_id s)
                   then set_messages s
                          (List.map (fun m => if str_eqb (m_id m) (botMessageId c)
                                              then g m else m) (messages s))
                   else s); [reflexivity|].
  intros s _. destruct (id_is _ _); [|done].
  apply one_stream_le. unfold streaming_count. cbn [messages set_messages].
  apply count_map_le. intros m. destruct (str_eqb _ _); auto.
Qed.

Lemma handleSend_catch_one_stream c message st :
  all_one_stream st → all_one_stream (handleSend_catch c message st).
Proof.
  intros H. unfold handleSend_catch.
  destruct (isQuotaError message && _);
    apply (patchBot_one_stream c); done.
Qed.

Lemma handleSend_event_one_stream c ev st :
  all_one_stream st → all_one_stream (handleSend_event c ev st).1.
Proof.
  intros H. destruct ev as [t now| |message]; cbn.
  - destruct (stopGenerationRef st); cbn.
    + by apply (patchBot_one_stream c).
    + destruct (50 <? now - lastUpdateTime c); cbn; [|done].
      by apply (patchBot_one_stream c).
  - by apply (patchBot_one_stream c).
  - by apply handleSend_catch_one_stream.
Qed.

Lemma handleSend_begin_one_stream snap txt a clk st :
  none_streaming snap →
  all_one_stream st →
  all_one_stream (handleSend_begin snap txt a clk st).1.
Proof.
  intros Hsnap H. unfold handleSend_begin.
  destruct (credential snap) as [key|] eqn:Hk; [|done].
  set (u := userMessage _ _ _ _). set (b := initialBotMessage _ _).
  match goal with |- context [sendMessageStream ?t ?f ?m ?k ?g] =>
    destruct (sendMessageStream_ok t f m k g (credential_nonempty _ _ Hk))
      as [r ->] end.
  cbn [fst]. change (all_one_stream
    (updateCurrentMessages (currentSessionId snap)
       ((currentMessages snap ++ [u]) ++ [b]) (t_upd2 clk)
       (setIsLoading true
          (updateCurrentMessages (currentSessionId snap)
             (currentMessages snap ++ [u]) (t_upd1 clk)
             (setStopGeneration false st))))).
  apply updateCurrentMessages_one_stream.
  { rewrite !List.filter_app, (count_none _ _ Hsnap). cbn. lia. }
  change (all_one_stream
    (updateCurrentMessages (currentSessionId snap)
       (currentMessages snap ++ [u]) (t_upd1 clk) (setStopGeneration false st))).
  apply updateCurrentMessages_one_stream; [|done].
  rewrite !List.filter_app, (count_none _ _ Hsnap). cbn. lia.
Qed.

Lemma autoSave_sessions st : sessions (autoSave st) = sessions st.
Proof. unfold autoSave. by destruct (0 <? _)%nat. Qed.

(** Every event keeps the sessions at one streaming message at most,
    provided an event that starts a send comes when no message of the
    current session is streaming. *)
Lemma fire_one_stream w e :
  (starts_send e = true → none_streaming (app w)) →
  all_one_stream (app w) →
  all_one_stream (app (fire w e)).
Proof.
  intros Hgate H. unfold fire.
  assert (∀ st cs, all_one_stream st →
            all_one_stream (app (mkWorld (autoSave st) cs))) as Hsave.
  { intros st cs. unfold all_one_stream. cbn. by rewrite autoSave_sessions. }
  destruct e; cbn [starts_send] in Hgate.
  - by apply Hsave.
  - by apply Hsave.
  - pose proof (handleSend_begin_one_stream (app w) txt (Files files) clk (app w)
                  (Hgate eq_refl) H) as H'.
    unfold handleSend. destruct (handleSend_begin _ _ _ _ _). by apply Hsave.
  - pose proof (handleSend_begin_one_stream (app w) txt (Hidden hidden) clk (app w)
                  (Hgate eq_refl) H) as H'.
    unfold handleSend. destruct (handleSend_begin _ _ _ _ _). by apply Hsave.
  - unfold handleResend.
    assert (all_one_stream
              (updateCurrentMessages (currentSessionId (app w))
                 (take index (currentMessages (app w))) t_trunc (app w))) as Ht.
    { apply updateCurrentMessages_one_stream; [|done].
      etrans; [apply count_take_le|]. by apply currentMessages_count. }
    destruct (currentMessages (app w) !! index) as [msg|]; [|by apply Hsave].
    pose proof (handleSend_begin_one_stream (app w) (text msg)
                  (Files (default [] (attachments msg))) clk _
                  (Hgate eq_refl) Ht) as H'.
    destruct (handleSend_begin _ _ _ _ _). by apply Hsave.
  - apply Hsave. unfold handleDeleteMessage.
    apply updateCurrentMessages_one_stream; [|done].
    etrans; [apply count_filter_index_le|]. by apply currentMessages_count.
  - apply Hsave. unfold handleStop.
    destruct (truthy_id _); [|done].
    eapply all_one_stream_map; [reflexivity| |done].
    intros s _. cbn beta. destruct (id_is _ _); [|done].
    apply one_stream_le. unfold streaming_count. cbn [messages set_messages].
    apply count_map_le. intros m.
    destruct (truthy (isStreaming m)) eqn:E; [done|]. by rewrite E.
  - apply Hsave. unfold all_one_stream. cbn. by constructor.
  - apply Hsave. unfold deleteSession.
    assert (Forall (fun s => one_stream s = true)
              (List.filter (fun s => negb (str_eqb (s_id s) id))
                 (sessions (app w)))) as Hf.
    { unfold all_one_stream in H. rewrite List.Forall_forall in *.
      intros s Hs. apply List.filter_In in Hs as [Hs _]. auto. }
    destruct (id_is _ _); [|done].
    destruct (List.filter _ _) eqn:E; [|done].
    unfold all_one_stream. cbn. by constructor.
  - by apply Hsave.
  - by apply Hsave.
  - apply Hsave. unfold updateSessionTitle.
    eapply all_one_stream_map; [reflexivity| |done].
    intros s _. cbn beta. by destruct (str_eqb _ _).
  - destruct (calls w !! k) as [c|]; [|by apply Hsave].
    pose proof (handleSend_event_one_stream c ev (app w) H) as H'.
    destruct (handleSend_event c ev (app w)). by apply Hsave.
Qed.

Lemma run_one_stream es : ∀ w w',
  gated w es →
  all_one_stream (app w) →
  run w es = Some w' →
  all_one_stream (app w').
Proof.
  induction es as [|e es IH]; intros w w' Hg H Hrun; cbn in *.
  - by injection Hrun as <-.
  - destruct Hg as [Hgate Hg]. unfold step in Hrun.
    destruct (enabled w e); [|done]. cbn in Hrun.
    eapply IH; [exact Hg| |exact Hrun]. by apply fire_one_stream.
Qed.

(** The text that stop marks is the one last patched into the
    placeholder: a chunk that came within 50 ms of the last patch is in
    the buffer of the call but not in the marked text. *)
Lemma stop_marks_shown_text :
  ∃ w c s m,
    run first_load two_quick_chunks_then_stop = Some w
    ∧ calls w !! 0%nat = Some c
    ∧ fullText c = lit "ab"
    ∧ sessions (app w) !! 0%nat = Some s
    ∧ messages s !! 1%nat = Some m
    ∧ m_id m = botMessageId c
    ∧ isStreaming m = Some false
    ∧ text m = lit "a...".
Proof.
  eexists _, _, _, _.
  split; [evaluated|].
  split; [evaluated|].
  split; [reflexivity|].
  split; [evaluated|].
  split; [evaluated|].
  split; [reflexivity|]. split; reflexivity.
Qed.

(** * Further properties of the code *)

(** ** The completion client *)

Lemma handle_consistent_init : handle_consistent Gemini_init.
Proof. by intros c. Qed.

Lemma handle_consistent_reset g : handle_consistent (resetChatSession g).
Proof. by intros c. Qed.

(** X1.  If the cached handle, when there is one, was made for the
    remembered model and key, then so it is after [getChatSession], and
    the handle returned is the cached one and was made for the model and
    key asked for: a handle made for another model or another key is
    never handed out. *)
Theorem getChatSession_handle modelId key g :
  handle_consistent g →
  handle_consistent (getChatSession modelId key g).1
  ∧ chatSession (getChatSession modelId key g).1
    = Some (getChatSession modelId key g).2
  ∧ (getChatSession modelId key g).2 = mkChat modelId key.
Proof.
  intros Hg. unfold getChatSession.
  destruct (chatSession g) as [c|] eqn:Ec.
  - destruct (bool_decide (currentModelId g ≠ modelId)
              || bool_decide (currentApiKey g ≠ key)) eqn:E; cbn.
    + split_and!; [by intros ? [= <-]|done|done].
    + apply orb_false_iff in E as [E1 E2].
      apply bool_decide_eq_false, dec_stable in E1.
      apply bool_decide_eq_false, dec_stable in E2.
      destruct (Hg c Ec) as [H1 H2]. split_and!; [done|done|].
      destruct c as [cm ck]. cbn in *. congruence.
  - cbn. split_and!; [by intros ? [= <-]|done|done].
Qed.

Lemma getChatSession_handle_witness :
  (getChatSession gemini_2_5_flash (lit "AIzaKEY") Gemini_init).2
  = mkChat gemini_2_5_flash (lit "AIzaKEY").
Proof.
  exact (proj2 (proj2 (getChatSession_handle gemini_2_5_flash (lit "AIzaKEY")
                         Gemini_init handle_consistent_init))).
Defined.

(** X2.  With a key, [sendMessageStream] makes one request on a handle
    made for the given model and key.  Without attachments the message
    sent is the plain text; with attachments it is one inline part per
    attachment, in order, followed by the text part. *)
Theorem sendMessageStream_payload message atts modelId key g :
  key ≠ [] →
  handle_consistent g →
  ∃ g',
    sendMessageStream message atts modelId key g
    = (g', inr (mkRequest (mkChat modelId key) (payload message atts)))
    ∧ handle_consistent g'
    ∧ chatSession g' = Some (mkChat modelId key).
Proof.
  intros Hk Hg. unfold sendMessageStream.
  destruct key as [|x key]; [done|].
  destruct (getChatSession_handle modelId (x :: key) g Hg) as (H1 & H2 & H3).
  destruct (getChatSession modelId (x :: key) g) as [g' c]. cbn in *. subst c.
  exists g'. split_and!; [|done|done].
  destruct atts as [|att atts]; [done|].
  cbn [length Nat.ltb Nat.leb payload].
  replace (length (List.map attachmentPart (att :: atts) ++ [textPart message])
           =? 1)%nat with false; [done|].
  symmetry. apply Nat.eqb_neq. rewrite length_app, length_map. cbn. lia.
Qed.

Lemma sendMessageStream_payload_witness :
  ∃ g',
    sendMessageStream (lit "look") [mkAttachment (BrowserFile (lit "a.png")
                                      (lit "image/png")) [] image (Some (lit "QUJD"))]
      gemini_2_5_flash (lit "AIzaKEY") Gemini_init
    = (g', inr (mkRequest (mkChat gemini_2_5_flash (lit "AIzaKEY"))
                  (PartsMessage [inlineData (Some (lit "image/png")) (lit "QUJD");
                                 textPart (lit "look")]))).
Proof.
  destruct (sendMessageStream_payload (lit "look")
              [mkAttachment (BrowserFile (lit "a.png") (lit "image/png")) []
                 image (Some (lit "QUJD"))]
              gemini_2_5_flash (lit "AIzaKEY") Gemini_init)
    as (g' & H & _); [discriminate | exact handle_consistent_init |].
  by exists g'.
Defined.

Lemma updateCurrentMessages_frame cur newMessages now st :
  userSettings (updateCurrentMessages cur newMessages now st) = userSettings st
  ∧ currentSessionId (updateCurrentMessages cur newMessages now st)
    = currentSessionId st
  ∧ isLoading (updateCurrentMessages cur newMessages now st) = isLoading st
  ∧ selectedModel (updateCurrentMessages cur newMessages now st) = selectedModel st
  ∧ stopGenerationRef (updateCurrentMessages cur newMessages now st)
    = stopGenerationRef st
  ∧ gemini (updateCurrentMessages cur newMessages now st) = gemini st
  ∧ localStorage (updateCurrentMessages cur newMessages now st) = localStorage st
  ∧ requests (updateCurrentMessages cur newMessages now st) = requests st.
Proof. unfold updateCurrentMessages. by destruct (negb _). Qed.

(** X3.  A send from a page with a credential makes exactly one request,
    on a handle made for the selected model and the stored key, carrying
    the text and the attachments given (none when the second argument is
    the hidden flag); it sets the loading flag, clears the cancellation
    flag, and leaves the selection, the current session id, the settings
    and the store as they were. *)
Theorem handleSend_request st txt a clk key :
  credential st = Some key →
  handle_consistent (gemini st) →
  requests (handleSend txt a clk st).1
  = mkRequest (mkChat (selectedModel st) key) (payload txt (files_of a))
    :: requests st
  ∧ isLoading (handleSend txt a clk st).1 = true
  ∧ stopGenerationRef (handleSend txt a clk st).1 = false
  ∧ handle_consistent (gemini (handleSend txt a clk st).1)
  ∧ selectedModel (handleSend txt a clk st).1 = selectedModel st
  ∧ currentSessionId (handleSend txt a clk st).1 = currentSessionId st
  ∧ userSettings (handleSend txt a clk st).1 = userSettings st
  ∧ localStorage (handleSend txt a clk st).1 = localStorage st.
Proof.
  intros Hk Hg. unfold handleSend, handleSend_begin. rewrite Hk.
  set (st1 := updateCurrentMessages _ _ (t_upd1 clk) _).
  set (st2 := updateCurrentMessages _ _ (t_upd2 clk) _).
  destruct (updateCurrentMessages_frame (currentSessionId st)
              (currentMessages st
               ++ [userMessage txt a (t_user clk) (selectedModel st)])
              (t_upd1 clk) (setStopGeneration false st))
    as (A1 & A2 & A3 & A4 & A5 & A6 & A7 & A8).
  destruct (updateCurrentMessages_frame (currentSessionId st)
              ((currentMessages st
                ++ [userMessage txt a (t_user clk) (selectedModel st)])
               ++ [initialBotMessage (t_bot clk) (selectedModel st)])
              (t_upd2 clk) (setIsLoading true st1))
    as (B1 & B2 & B3 & B4 & B5 & B6 & B7 & B8).
  fold st1 in A1, A2, A3, A4, A5, A6, A7, A8.
  fold st2 in B1, B2, B3, B4, B5, B6, B7, B8.
  cbn in A1, A2, A3, A4, A5, A6, A7, A8, B1, B2, B3, B4, B5, B6, B7, B8.
  destruct (sendMessageStream_payload txt (files_of a) (selectedModel st) key
              (gemini st2) (credential_nonempty _ _ Hk))
    as (g' & -> & Hg' & _).
  { by rewrite B6, A6. }
  cbn. rewrite B8, A8, B3, B5, A5, B4, A4, B2, A2, B1, A1, B7, A7. done.
Qed.

Lemma handleSend_request_witness :
  requests (handleSend (lit "quiz") (Hidden true) (clock_at 3000)
              (page_with (lit "hi") [hello_user; hello_model])).1
  = [mkRequest (mkChat gemini_3_pro_preview (lit "AIzaKEY"))
       (PlainMessage (lit "quiz"))].
Proof.
  exact (proj1 (handleSend_request
                  (page_with (lit "hi") [hello_user; hello_model])
                  (lit "quiz") (Hidden true) (clock_at 3000) (lit "AIzaKEY")
                  eq_refl handle_consistent_init)).
Defined.

(** ** The stream of one call *)

Lemma same_but_placeholder_refl c l : same_but_placeholder c l l.
Proof. split; [done|]. intros k s Hs. exists s. by split_and!. Qed.

Lemma patchBot_same_but_placeholder c f st :
  (∀ m, m_id (f m) = m_id m) →
  same_but_placeholder c (sessions st) (sessions (patchBot c f st)).
Proof.
  intros Hf. split; [cbn; by rewrite length_map|].
  intros k s Hs. eexists. split; [by apply patchBot_lookup|].
  destruct (id_is (call_sessionId c) (s_id s)); [|by split_and!].
  cbn. split_and!; try done.
  - by rewrite length_map.
  - intros i m Hm Hne. rewrite map_lookup, Hm. cbn.
    unfold str_eqb. by rewrite bool_decide_eq_false_2.
Qed.

(** X4.  Whatever a stream does next, the turn of the loop changes
    nothing of the session list but the messages bearing the
    placeholder's id in the sessions bearing the call's session id: no
    session or message is added, removed or moved, no title or
    [updatedAt] changes, and the settings, the current session id, the
    cancellation flag, the chat handle, the store and the requests stay
    as they were. *)
Theorem stream_event_touches_placeholder_only c ev st :
  same_but_placeholder c (sessions st) (sessions (handleSend_event c ev st).1)
  ∧ userSettings (handleSend_event c ev st).1 = userSettings st
  ∧ currentSessionId (handleSend_event c ev st).1 = currentSessionId st
  ∧ stopGenerationRef (handleSend_event c ev st).1 = stopGenerationRef st
  ∧ gemini (handleSend_event c ev st).1 = gemini st
  ∧ localStorage (handleSend_event c ev st).1 = localStorage st
  ∧ requests (handleSend_event c ev st).1 = requests st.
Proof.
  destruct ev as [t now| |message]; cbn.
  - destruct (stopGenerationRef st) eqn:E; cbn.
    + split_and!; try done.
      by apply (patchBot_same_but_placeholder c (fun m => finalize m (fullText c))).
    + destruct (50 <? now - lastUpdateTime c); cbn; split_and!; try done.
      * by apply (patchBot_same_but_placeholder c).
      * apply same_but_placeholder_refl.
  - split_and!; try done.
    by apply (patchBot_same_but_placeholder c (fun m => finalize m (fullText c))).
  - unfold handleSend_catch.
    destruct (isQuotaError message && _); cbn; split_and!; try done.
    + by apply (patchBot_same_but_placeholder c (fun m => fail_with m quota_notice)
                  (setSelectedModel gemini_2_5_flash st)).
    + by apply (patchBot_same_but_placeholder c
                  (fun m => fail_with m (connection_error_text (text m) message))).
Qed.

(** The state of the loop after some chunks, none of them after a stop:
    the call still awaits, its buffer has grown by the chunks' texts,
    and the placeholder is where it was and still streaming as before,
    showing a prefix of the buffer if it did. *)
Lemma chunks_invariant chunks : ∀ c st k s i m,
  stopGenerationRef st = false →
  sessions st !! k = Some s →
  id_is (call_sessionId c) (s_id s) = true →
  messages s !! i = Some m →
  m_id m = botMessageId c →
  ∃ st' c' s' m',
    handleSend_events c (chunk_events chunks) st = (st', Some c')
    ∧ stopGenerationRef st' = false
    ∧ isLoading st' = isLoading st
    ∧ call_sessionId c' = call_sessionId c
    ∧ botMessageId c' = botMessageId c
    ∧ call_model c' = call_model c
    ∧ fullText c' = fullText c ++ chunks_text chunks
    ∧ sessions st' !! k = Some s'
    ∧ s_id s' = s_id s
    ∧ messages s' !! i = Some m'
    ∧ m_id m' = m_id m
    ∧ isStreaming m' = isStreaming m
    ∧ error m' = error m
    ∧ (text m `prefix_of` fullText c → text m' `prefix_of` fullText c').
Proof.
  induction chunks as [|[t now] chunks IH]; intros c st k s i m Hstop Hs Hid Hm Hb.
  - exists st, c, s, m. cbn. unfold chunks_text. cbn. rewrite app_nil_r.
    by split_and!.
  - cbn [chunk_events List.map handleSend_events handleSend_event fst snd].
    rewrite Hstop.
    destruct (50 <? now - lastUpdateTime c).
    + set (c1 := mkSendCall _ _ _ (fullText c ++ default [] t) now).
      destruct (patchBot_placeholder c
                  (fun m => set_text m (fullText c ++ default [] t)) st k s i m)
        as (s1 & Hs1 & Hid1 & Hm1); try done.
      destruct (IH c1 (patchBot c (fun m => set_text m (fullText c ++ default [] t)) st)
                  k s1 i (set_text m (fullText c ++ default [] t)))
        as (st' & c' & s' & m' & H1 & H2 & H3 & H4 & H5 & H6 & H7 & H8 & H9
            & H10 & H11 & H12 & H13 & H14); try done.
      { cbn. by rewrite Hid1. }
      exists st', c', s', m'. split_and!; try done; try congruence.
      * rewrite H7. cbn. unfold chunks_text. cbn. by rewrite app_assoc.
      * intros _. apply H14. cbn. reflexivity.
    + set (c1 := mkSendCall _ _ _ (fullText c ++ default [] t) (lastUpdateTime c)).
      destruct (IH c1 st k s i m)
        as (st' & c' & s' & m' & H1 & H2 & H3 & H4 & H5 & H6 & H7 & H8 & H9
            & H10 & H11 & H12 & H13 & H14); try done.
      exists st', c', s', m'. split_and!; try done; try congruence.
      * rewrite H7. cbn. unfold chunks_text. cbn. by rewrite app_assoc.
      * intros Hp. apply H14. cbn. by apply prefix_app_r.
Qed.

Lemma handleSend_events_app c evs1 evs2 st st1 c1 :
  handleSend_events c evs1 st = (st1, Some c1) →
  handleSend_events c (evs1 ++ evs2) st = handleSend_events c1 evs2 st1.
Proof.
  revert c st. induction evs1 as [|ev evs1 IH]; intros c st H; cbn in *.
  - by injection H as <- <-.
  - destruct (handleSend_event c ev st) as [st' [c'|]]; [by apply IH|done].
Qed.

(** X5.  When the stream of a call delivers its chunks and ends, no stop
    coming in between, the placeholder ends not streaming with the text
    the call had buffered followed by the texts of all the chunks, in
    order and whatever their timing: throttling loses nothing.  The
    loading flag is cleared. *)
Theorem stream_end_shows_every_chunk chunks c st k s i m :
  stopGenerationRef st = false →
  sessions st !! k = Some s →
  id_is (call_sessionId c) (s_id s) = true →
  messages s !! i = Some m →
  m_id m = botMessageId c →
  ∃ st' s' m',
    handleSend_events c (chunk_events chunks ++ [stream_end]) st = (st', None)
    ∧ isLoading st' = false
    ∧ sessions st' !! k = Some s'
    ∧ messages s' !! i = Some m'
    ∧ isStreaming m' = Some false
    ∧ text m' = fullText c ++ chunks_text chunks.
Proof.
  intros Hstop Hs Hid Hm Hb.
  destruct (chunks_invariant chunks c st k s i m)
    as (st1 & c1 & s1 & m1 & H1 & H2 & H3 & H4 & H5 & H6 & H7 & H8 & H9
        & H10 & H11 & _); try done.
  rewrite (handleSend_events_app _ _ _ _ _ _ H1). cbn.
  destruct (handleSend_final_placeholder c1 st1 k s1 i m1)
    as (s' & m' & A1 & A2 & A3 & A4); try done.
  { by rewrite H4, H9. }
  { by rewrite H11, H5. }
  exists (handleSend_final c1 st1), s', m'. split_and!; try done.
  by rewrite A4, H7.
Qed.

Lemma stream_end_shows_every_chunk_witness :
  ∃ st' s' m',
    handleSend_events pro_call
      (chunk_events [(Some (lit "a"), 2100); (Some (lit "b"), 2120); (None, 2130)]
       ++ [stream_end]) streaming_page = (st', None)
    ∧ sessions st' !! 0%nat = Some s'
    ∧ messages s' !! 1%nat = Some m'
    ∧ text m' = lit "ab".
Proof.
  destruct (stream_end_shows_every_chunk
              [(Some (lit "a"), 2100); (Some (lit "b"), 2120); (None, 2130)]
              pro_call streaming_page 0
              (mkChatSession (lit "1000") (lit "hi") [hello_user; placeholder] 1000)
              1 placeholder)
    as (st' & s' & m' & H1 & _ & H2 & H3 & _ & H4);
    [reflexivity | reflexivity | reflexivity | reflexivity | reflexivity |].
  by exists st', s', m'.
Defined.

(** X6.  While chunks arrive and no stop comes, the placeholder stays
    streaming and what it shows is a prefix of what the call has
    buffered; the buffer is what it was followed by the chunks' texts. *)
Theorem shown_text_is_prefix_of_buffer chunks c st k s i m :
  stopGenerationRef st = false →
  sessions st !! k = Some s →
  id_is (call_sessionId c) (s_id s) = true →
  messages s !! i = Some m →
  m_id m = botMessageId c →
  text m `prefix_of` fullText c →
  ∃ st' c' s' m',
    handleSend_events c (chunk_events chunks) st = (st', Some c')
    ∧ fullText c' = fullText c ++ chunks_text chunks
    ∧ sessions st' !! k = Some s'
    ∧ messages s' !! i = Some m'
    ∧ isStreaming m' = isStreaming m
    ∧ text m' `prefix_of` fullText c'.
Proof.
  intros Hstop Hs Hid Hm Hb Hp.
  destruct (chunks_invariant chunks c st k s i m)
    as (st1 & c1 & s1 & m1 & H1 & H2 & H3 & H4 & H5 & H6 & H7 & H8 & H9
        & H10 & H11 & H12 & H13 & H14); try done.
  exists st1, c1, s1, m1. split_and!; try done. by apply H14.
Qed.

Lemma shown_text_is_prefix_of_buffer_witness :
  ∃ st' c' s' m',
    handleSend_events pro_call
      (chunk_events [(Some (lit "a"), 2100); (Some (lit "b"), 2120)])
      streaming_page = (st', Some c')
    ∧ fullText c' = lit "ab"
    ∧ sessions st' !! 0%nat = Some s'
    ∧ messages s' !! 1%nat = Some m'
    ∧ text m' `prefix_of` fullText c'.
Proof.
  destruct (shown_text_is_prefix_of_buffer
              [(Some (lit "a"), 2100); (Some (lit "b"), 2120)]
              pro_call streaming_page 0
              (mkChatSession (lit "1000") (lit "hi") [hello_user; placeholder] 1000)
              1 placeholder)
    as (st' & c' & s' & m' & H1 & H2 & H3 & H4 & _ & H5);
    [reflexivity | reflexivity | reflexivity | reflexivity | reflexivity
    | by exists [] |].
  by exists st', c', s', m'.
Defined.



(** ** Messages of the current session *)

Lemma filter_index_all {A} (p : nat → bool) (n : nat) (l : list A) :
  (∀ i, n ≤ i → p i = true)%nat → filter_index p n l = l.
Proof.
  revert n. induction l as [|x l IH]; intros n H; cbn; [done|].
  rewrite (H n) by lia. f_equal. apply IH. intros i Hi. apply H. lia.
Qed.

Lemma filter_index_ext {A} (p q : nat → bool) (n : nat) (l : list A) :
  (∀ i, p i = q i) → filter_index p n l = filter_index q n l.
Proof.
  intros H. revert n. induction l as [|x l IH]; intros n; cbn; [done|].
  by rewrite H, !IH.
Qed.

Lemma filter_index_delete {A} (index n : nat) (l : list A) :
  filter_index (fun i => negb (i =? n + index)%nat) n l = delete index l.
Proof.
  revert index n. induction l as [|x l IH]; intros index n; cbn; [done|].
  destruct index as [|index].
  - replace (n =? n + 0)%nat with true by (symmetry; apply Nat.eqb_eq; lia).
    cbn. apply filter_index_all. intros i Hi.
    apply negb_true_iff, Nat.eqb_neq. lia.
  - replace (n =? n + S index)%nat with false by (symmetry; apply Nat.eqb_neq; lia).
    cbn. f_equal. etrans; [|apply (IH index (S n))].
    apply filter_index_ext. intros i. do 2 f_equal. lia.
Qed.

(** X8.  [handleDeleteMessage] takes out of the current session the
    message at the given index of the render's messages and nothing
    else, sets the session's time, and leaves the sessions of other ids
    alone; with an index past the end the messages stay as they are. *)
Theorem delete_message_removes_one st index now k s :
  truthy_id (currentSessionId st) = true →
  sessions st !! k = Some s →
  id_is (currentSessionId st) (s_id s) = true →
  ∃ s',
    sessions (handleDeleteMessage index now st) !! k = Some s'
    ∧ s_id s' = s_id s
    ∧ updatedAt s' = now
    ∧ messages s' = delete index (currentMessages st)
    ∧ (length (currentMessages st) ≤ index → messages s' = currentMessages st)%nat
    ∧ ∀ k' s0, sessions st !! k' = Some s0 →
        id_is (currentSessionId st) (s_id s0) = false →
        sessions (handleDeleteMessage index now st) !! k' = Some s0.
Proof.
  intros Hc Hs Hid. unfold handleDeleteMessage.
  rewrite (filter_index_delete index 0).
  eexists. split; [by apply updateCurrentMessages_lookup|].
  rewrite Hid. cbn. split_and!; try done.
  - intros Hlen. rewrite delete_take_drop, take_ge, drop_ge by lia.
    apply app_nil_r.
  - intros k' s0 Hs0 Hno.
    rewrite (updateCurrentMessages_lookup _ _ _ _ _ _ Hc Hs0). by rewrite Hno.
Qed.

Lemma delete_message_removes_one_witness :
  ∃ s',
    sessions (handleDeleteMessage 0 3000
                (page_with (lit "hi") [hello_user; hello_model])) !! 0%nat
    = Some s'
    ∧ messages s' = [hello_model].
Proof.
  destruct (delete_message_removes_one
              (page_with (lit "hi") [hello_user; hello_model]) 0 3000 0
              (mkChatSession (lit "1000") (lit "hi") [hello_user; hello_model] 1000))
    as (s' & H1 & _ & _ & H2 & _); [reflexivity | reflexivity | reflexivity |].
  by exists s'.
Defined.

(** X9.  When resend is called with an index past the end, or from a
    page without a credential, no send follows: no call awaits a stream,
    no request is made, and the current session is left with the
    render's messages before the index, which with an index past the
    end is all of them. *)
Theorem resend_without_send st index t_trunc clk k s :
  currentMessages st !! index = None ∨ credential st = None →
  truthy_id (currentSessionId st) = true →
  sessions st !! k = Some s →
  id_is (currentSessionId st) (s_id s) = true →
  (handleResend index t_trunc clk st).2 = None
  ∧ requests (handleResend index t_trunc clk st).1 = requests st
  ∧ isLoading (handleResend index t_trunc clk st).1 = isLoading st
  ∧ ∃ s',
      sessions (handleResend index t_trunc clk st).1 !! k = Some s'
      ∧ messages s' = take index (currentMessages st)
      ∧ (currentMessages st !! index = None → messages s' = currentMessages st).
Proof.
  intros Hcase Hc Hs Hid.
  assert ((handleResend index t_trunc clk st)
          = (updateCurrentMessages (currentSessionId st)
               (take index (currentMessages st)) t_trunc st, None)) as ->.
  { unfold handleResend.
    destruct (currentMessages st !! index) as [msg|] eqn:E; [|done].
    destruct Hcase as [?|Hk]; [done|].
    unfold handleSend_begin. by rewrite Hk. }
  cbn [fst snd].
  destruct (updateCurrentMessages_frame (currentSessionId st)
              (take index (currentMessages st)) t_trunc st)
    as (_ & _ & A3 & _ & _ & _ & _ & A8).
  split_and!; try done.
  eexists. split; [by apply updateCurrentMessages_lookup|].
  rewrite Hid. cbn. split; [done|].
  intros Hn. apply take_ge. by apply lookup_ge_None.
Qed.

Lemma resend_without_send_witness :
  (handleResend 5 3000 (clock_at 3000)
     (page_with (lit "hi") [hello_user; hello_model])).2 = None
  ∧ requests (handleResend 5 3000 (clock_at 3000)
                (page_with (lit "hi") [hello_user; hello_model])).1 = [].
Proof.
  destruct (resend_without_send (page_with (lit "hi") [hello_user; hello_model])
              5 3000 (clock_at 3000) 0
              (mkChatSession (lit "1000") (lit "hi") [hello_user; hello_model] 1000))
    as (H1 & H2 & _); [by left | reflexivity | reflexivity | reflexivity |].
  by split.
Defined.

(** X10.  [updateCurrentMessages] keeps the title of a session that has
    messages when the update comes, or whose title does not contain
    "New Chat", or when the new messages hold no message of role
    user. *)
Theorem title_kept cur newMessages now st k s :
  sessions st !! k = Some s →
  messages s ≠ [] ∨ includes (title s) (lit "New Chat") = false
  ∨ Forall (fun m => role m ≠ user) newMessages →
  ∃ s',
    sessions (updateCurrentMessages cur newMessages now st) !! k = Some s'
    ∧ s_id s' = s_id s
    ∧ title s' = title s.
Proof.
  intros Hs Hcase.
  assert (derive_title s newMessages = title s) as Ht.
  { unfold derive_title. destruct Hcase as [H|[H|H]].
    - by destruct (messages s).
    - rewrite H. by rewrite !andb_false_r.
    - destruct (_ && _); [|done].
      destruct (List.find _ newMessages) as [m|] eqn:E; [|done].
      apply List.find_some in E as [E1 E2].
      rewrite List.Forall_forall in H. specialize (H m E1).
      by apply bool_decide_eq_true in E2. }
  unfold updateCurrentMessages. destruct (truthy_id cur); cbn.
  - rewrite map_lookup, Hs. cbn.
    destruct (id_is cur (s_id s)); eexists; (split; [reflexivity|]); by cbn.
  - by exists s.
Qed.

Lemma title_kept_witness :
  ∃ s',
    sessions (updateCurrentMessages (Some (lit "1000")) [visible_user] 2000
                (page_with (lit "My notes") [])) !! 0%nat = Some s'
    ∧ title s' = lit "My notes".
Proof.
  destruct (title_kept (Some (lit "1000")) [visible_user] 2000
              (page_with (lit "My notes") []) 0
              (mkChatSession (lit "1000") (lit "My notes") [] 1000))
    as (s' & H1 & _ & H2); [reflexivity | right; left; reflexivity |].
  by exists s'.
Defined.

(** X11.  Pressing stop twice is pressing it once: the second
    [handleStop] finds nothing streaming and adds no second marker. *)
Theorem handleStop_idempotent st : handleStop (handleStop st) = handleStop st.
Proof.
  destruct st as [us ss cur ld sel stopf g ls rq al rl].
  unfold handleStop. cbn.
  destruct (truthy_id cur) eqn:E; cbn; rewrite ?E; [|done].
  unfold setSessions. cbn. f_equal.
  rewrite List.map_map. apply List.map_ext. intros s.
  destruct (id_is cur (s_id s)) eqn:Hid; cbn; rewrite Hid; [|done].
  unfold set_messages. cbn. f_equal.
  rewrite List.map_map. apply List.map_ext. intros m.
  destruct (truthy (isStreaming m)) eqn:Hm; cbn; [done|]. by rewrite Hm.
Qed.

(** ** Creating and deleting sessions *)

Lemma filter_all {A} (p : A → bool) (l : list A) :
  Forall (fun x => p x = true) l → List.filter p l = l.
Proof. induction 1 as [|x l Hx _ IH]; cbn; [done|]. by rewrite Hx, IH. Qed.

(** X12.  Deleting a session right after it was created gives back the
    session list as it was, provided no older session bears the new id;
    the session made current is then the first of the list, which need
    not be the one that was current before. *)
Theorem delete_new_session_restores_list st t_id t_upd t_id' t_upd' :
  Forall (fun s => s_id s ≠ toString t_id) (sessions st) →
  sessions st ≠ [] →
  sessions (deleteSession (toString t_id) t_id' t_upd'
              (createNewSession t_id t_upd st)) = sessions st
  ∧ currentSessionId (deleteSession (toString t_id) t_id' t_upd'
                        (createNewSession t_id t_upd st))
    = s_id <$> head (sessions st).
Proof.
  intros Hfresh Hne. unfold deleteSession, createNewSession.
  cbn [sessions setSessions setCurrentSessionId setGemini currentSessionId
       List.filter s_id id_is].
  assert (str_eqb (toString t_id) (toString t_id) = true) as Hrefl
    by by apply str_eqb_true.
  rewrite !Hrefl. cbn [negb].
  rewrite filter_all.
  2:{ eapply Forall_impl; [exact Hfresh|]. intros s H. cbn in H.
      apply negb_true_iff. unfold str_eqb. by apply bool_decide_eq_false_2. }
  destruct (sessions st) as [|s0 l]; [done|]. by cbn.
Qed.

Lemma delete_new_session_restores_list_witness :
  sessions (deleteSession (toString 7000) 8000 8000
              (createNewSession 7000 7000 older_used_last))
  = sessions older_used_last
  ∧ currentSessionId (deleteSession (toString 7000) 8000 8000
                        (createNewSession 7000 7000 older_used_last))
    = Some (lit "2000").
Proof.
  apply (delete_new_session_restores_list older_used_last 7000 7000 8000 8000).
  - repeat constructor; discriminate.
  - discriminate.
Defined.

(** ** Loading and storing *)

(** X13.  Start-up never fails for want of stored sessions: when nothing
    is stored under the sessions key, or what is stored is not JSON, or
    is JSON but not an array, or is the empty array, loading leaves the
    page with exactly one session, new, without messages, with the
    default title, and current; the store is not touched. *)
Theorem load_falls_back_to_new_session t_id t_upd st :
  nothing_to_load (localStorage st) →
  sessions st = [] →
  ∃ st',
    loadSessions t_id t_upd st = Some st'
    ∧ sessions st' = [mkChatSession (toString t_id) default_title [] t_upd]
    ∧ currentSessionId st' = Some (toString t_id)
    ∧ localStorage st' = localStorage st
    ∧ userSettings st' = userSettings st.
Proof.
  unfold nothing_to_load, loadSessions. intros H Hs.
  destruct (localStorage st !! sessions_key) as [[v|raw]|]; cbn in *.
  - destruct v as [| | | |[|]|]; try done;
      (eexists; split; [reflexivity|]); cbn; by rewrite ?Hs.
  - eexists; split; [reflexivity|]; cbn; by rewrite ?Hs.
  - eexists; split; [reflexivity|]; cbn; by rewrite ?Hs.
Qed.

Lemma load_falls_back_to_new_session_witness :
  ∃ st',
    loadSessions 1000 1000 (initial_state broken_store) = Some st'
    ∧ sessions st' = [mkChatSession (lit "1000") default_title [] 1000].
Proof.
  destruct (load_falls_back_to_new_session 1000 1000 (initial_state broken_store))
    as (st' & H1 & H2 & _); [exact I | reflexivity |].
  by exists st'.
Defined.

Lemma newer_first_trans : Transitive newer_first.
Proof. unfold newer_first. intros a b c ??. lia. Qed.

(** X14.  When a non-empty array of sessions is stored, their
    [updatedAt] being integers below 2^53 in magnitude, loading shows
    exactly those sessions, ordered by [updatedAt] descending, and makes
    the first one current: no session of the list was updated later
    than the current one. *)
Theorem load_selects_latest_updated t_id t_upd st vs parsed :
  localStorage st !! sessions_key = Some (JsonText (JArr vs)) →
  read_all ChatSession_of_json vs = Some parsed →
  Forall (fun s => safe_integer (updatedAt s)) parsed →
  parsed ≠ [] →
  ∃ st' first,
    loadSessions t_id t_upd st = Some st'
    ∧ sessions st' ≡ₚ parsed
    ∧ Sorted newer_first (sessions st')
    ∧ head (sessions st') = Some first
    ∧ currentSessionId st' = Some (s_id first)
    ∧ Forall (fun s => updatedAt s ≤ updatedAt first) (sessions st').
Proof.
  intros Hl Hr _ Hne. unfold loadSessions. rewrite Hl. cbn [JSON_parse].
  rewrite Hr. cbn [mbind option_bind].
  pose proof (Array_sort_Permutation parsed) as Hp.
  pose proof (Array_sort_Sorted parsed) as Hsorted.
  destruct (Array_sort parsed) as [|first l] eqn:E.
  { exfalso. apply Hne. symmetry. by apply Permutation_nil_l. }
  exists (setCurrentSessionId (Some (s_id first))
            (setSessions (fun _ => first :: l) st)), first.
  cbn. split_and!; try done.
  apply Sorted_StronglySorted in Hsorted; [|apply newer_first_trans].
  inversion_clear Hsorted as [|? ? _ Hall]. constructor; [lia|].
  eapply Forall_impl; [exact Hall|]. by intros s Hs.
Qed.

Lemma load_selects_latest_updated_witness :
  ∃ st' first,
    loadSessions 0 0 (initial_state two_stored) = Some st'
    ∧ head (sessions st') = Some first
    ∧ currentSessionId st' = Some (s_id first)
    ∧ Forall (fun s => updatedAt s ≤ updatedAt first) (sessions st').
Proof.
  destruct (load_selects_latest_updated 0 0 (initial_state two_stored)
              (List.map json_of_ChatSession
                 [mkChatSession (lit "1000") (lit "first") [] 5000;
                  mkChatSession (lit "2000") (lit "second") [] 3000])
              [mkChatSession (lit "1000") (lit "first") [] 5000;
               mkChatSession (lit "2000") (lit "second") [] 3000])
    as (st' & first & H1 & _ & _ & H2 & H3 & H4);
    [reflexivity | vm_compute; reflexivity | repeat constructor
    | discriminate |].
  by exists st', first.
Defined.

(** Handlers that do not set the session list leave it, and the stored
    sessions document, as they were. *)
Lemma updateCurrentMessages_no_id cur newMessages now st :
  truthy_id cur = false → updateCurrentMessages cur newMessages now st = st.
Proof. unfold updateCurrentMessages. by intros ->. Qed.

Lemma handleSend_begin_no_id snap txt a clk st :
  truthy_id (currentSessionId snap) = false →
  sessions (handleSend_begin snap txt a clk st).1 = sessions st
  ∧ localStorage (handleSend_begin snap txt a clk st).1 = localStorage st.
Proof.
  intros Hc. unfold handleSend_begin.
  destruct (credential snap) as [key|] eqn:Hk; [|done].
  rewrite !(updateCurrentMessages_no_id _ _ _ _ Hc).
  match goal with |- context [sendMessageStream ?t ?f ?m ?k ?g] =>
    destruct (sendMessageStream_ok t f m k g (credential_nonempty _ _ Hk))
      as [r ->] end.
  by cbn.
Qed.

Lemma handle_frame w e :
  sets_sessions w e = false →
  sessions (handle w e).1 = sessions (app w)
  ∧ localStorage (handle w e).1 !! sessions_key
    = localStorage (app w) !! sessions_key.
Proof.
  unfold sets_sessions, handle. destruct e; cbn zeta; intros H; try done.
  - cbn. by rewrite lookup_insert_ne.
  - cbn. by rewrite lookup_delete_ne.
  - unfold handleSend.
    pose proof (handleSend_begin_no_id (app w) txt (Files files) clk (app w)) as Hno.
    destruct (credential (app w)) as [key|] eqn:Hk.
    + rewrite bool_decide_eq_true_2 in H by eauto. cbn in H.
      destruct (handleSend_begin _ _ _ _ _); cbn in *.
      destruct (Hno H) as [-> ->]. done.
    + unfold handleSend_begin. by rewrite Hk.
  - unfold handleSend.
    pose proof (handleSend_begin_no_id (app w) txt (Hidden hidden) clk (app w)) as Hno.
    destruct (credential (app w)) as [key|] eqn:Hk.
    + rewrite bool_decide_eq_true_2 in H by eauto. cbn in H.
      destruct (handleSend_begin _ _ _ _ _); cbn in *.
      destruct (Hno H) as [-> ->]. done.
    + unfold handleSend_begin. by rewrite Hk.
  - unfold handleResend. rewrite (updateCurrentMessages_no_id _ _ _ _ H).
    destruct (currentMessages (app w) !! index) as [msg|]; [|done].
    pose proof (handleSend_begin_no_id (app w) (text msg)
                  (Files (default [] (attachments msg))) clk (app w) H) as Hno.
    destruct (handleSend_begin _ _ _ _ _); cbn in *.
    destruct Hno as [-> ->]. done.
  - unfold handleDeleteMessage. by rewrite (updateCurrentMessages_no_id _ _ _ _ H).
  - unfold handleStop. by rewrite H.
  - destruct (calls w !! k) as [c|]; [|done].
    destruct ev as [t now| |message]; [|done|done].
    apply orb_false_iff in H as [H1 H2]. cbn. by rewrite H1, H2.
Qed.

Lemma fire_handle w e :
  fire w e = mkWorld (autoSave (handle w e).1) (handle w e).2.
Proof.
  unfold fire, handle. destruct e; try done.
  - by destruct (handleSend _ _ _ _).
  - by destruct (handleSend _ _ _ _).
  - by destruct (handleResend _ _ _ _).
  - destruct (calls w !! k) as [c|]; [|done].
    by destruct (handleSend_event _ _ _).
Qed.

Lemma autoSave_in_step st : in_step (autoSave st).
Proof.
  unfold in_step, sessions_stored. rewrite autoSave_sessions. intros Hne.
  unfold autoSave. destruct (sessions st) as [|s l] eqn:E; [done|].
  cbn [length Nat.ltb Nat.leb localStorage setLocalStorage].
  apply lookup_insert_eq.
Qed.

(** On a store in step the effect rewrites what is there. *)
Lemma autoSave_id st : in_step st → autoSave st = st.
Proof.
  unfold in_step, sessions_stored, autoSave. intros H.
  destruct (sessions st) as [|s l] eqn:E; [done|]. cbn.
  destruct st as [us ss cur ld sel stopf g ls rq al rl]. cbn in *.
  unfold setLocalStorage. cbn. f_equal. subst ss. apply insert_id.
  by apply H.
Qed.

(** One event: the effect run as the source runs it keeps the store in
    step and gives the state that running it after every event gives. *)
Lemma fire_exact_in_step w e :
  in_step (app w) →
  in_step (app (fire_exact w e)) ∧ fire_exact w e = fire w e.
Proof.
  intros Hw. rewrite fire_handle. unfold fire_exact.
  pose proof (handle_frame w e) as Hframe.
  destruct (handle w e) as [st' cs]. cbn [fst snd] in *.
  destruct (sets_sessions w e).
  - split; [apply autoSave_in_step|done].
  - destruct (Hframe eq_refl) as [Hs Hl].
    assert (in_step st') as Hst'.
    { unfold in_step, sessions_stored in *. rewrite Hs, Hl. exact Hw. }
    split; [done|]. by rewrite autoSave_id.
Qed.

(** Every page load leaves the store in step. *)
Lemma boot_in_step ls t_id t_upd st :
  boot ls t_id t_upd = Some st → in_step st.
Proof.
  unfold boot. destruct (loadSettings _) as [st1|]; [|done]. cbn.
  destruct (loadSessions _ _ _) as [st2|]; [|done]. cbn.
  intros [= <-]. apply autoSave_in_step.
Qed.

(** X15.  With the auto-save effect run only after the handlers that set
    the session list, as its dependency on [sessions] makes it, every
    run of events from a page whose store is in step with its session
    list ends with the store in step: when there are sessions, the
    stored document is their list.  The run reaches the state that the
    page reaches when the effect is run after every event. *)
Theorem store_stays_in_step es : ∀ w w',
  in_step (app w) →
  run_exact w es = Some w' →
  in_step (app w') ∧ run w es = Some w'.
Proof.
  induction es as [|e es IH]; intros w w' Hw Hrun; cbn in *.
  - injection Hrun as <-. by split.
  - unfold step. destruct (enabled w e); [|done]. cbn.
    destruct (fire_exact_in_step w e Hw) as [H1 H2].
    rewrite <- H2. by apply IH.
Qed.

Lemma store_stays_in_step_witness :
  ∃ w', run_exact first_load two_sends_in_turn = Some w'
        ∧ in_step (app w')
        ∧ run first_load two_sends_in_turn = Some w'.
Proof.
  eexists. split; [evaluated|].
  eapply (store_stays_in_step two_sends_in_turn first_load).
  - intros _. reflexivity.
  - evaluated.
Defined.

(** X16.  Signing out removes the settings from the page and from the
    store and drops the chat handle, after which a send does nothing and
    a page load finds no settings; the sessions, in memory and in the
    store, are kept. *)
Theorem logout_keeps_sessions st :
  userSettings (handleLogout st) = None
  ∧ localStorage (handleLogout st) !! settings_key = None
  ∧ chatSession (gemini (handleLogout st)) = None
  ∧ sessions (handleLogout st) = sessions st
  ∧ currentSessionId (handleLogout st) = currentSessionId st
  ∧ localStorage (handleLogout st) !! sessions_key
    = localStorage st !! sessions_key
  ∧ (∀ txt a clk, handleSend txt a clk (handleLogout st) = (handleLogout st, None))
  ∧ loadSettings (initial_state (localStorage (handleLogout st)))
    = Some (initial_state (localStorage (handleLogout st))).
Proof.
  unfold handleLogout. cbn. split_and!; try done.
  - apply lookup_delete_eq.
  - by apply lookup_delete_ne.
  - unfold loadSettings. cbn. by rewrite lookup_delete_eq.
Qed.

(** ** The welcome screen and the composer *)

Lemma startsWith_nonempty a b : startsWith a b = true → b ≠ [] → a ≠ [].
Proof. destruct b, a; cbn; congruence. Qed.

(** X17.  The welcome screen accepts its inputs exactly when the trimmed
    key starts with "AIza" and the trimmed name is not empty.  It then
    stores and sets the trimmed values, after which the page has a
    credential, so that no send is refused for want of one, and a page
    load reads the same settings back; the sessions are not touched. *)
Theorem welcome_sign_in apiKeyInput userNameInput st :
  match WelcomeScreen_handleSubmit apiKeyInput userNameInput st with
  | inr st' =>
      startsWith (trim apiKeyInput) (lit "AIza") = true
      ∧ trim userNameInput ≠ []
      ∧ userSettings st'
        = Some (mkUserSettings (trim apiKeyInput) (trim userNameInput))
      ∧ credential st' = Some (trim apiKeyInput)
      ∧ sessions st' = sessions st
      ∧ loadSettings (initial_state (localStorage st'))
        = Some (setUserSettings (userSettings st')
                  (initial_state (localStorage st')))
  | inl _ =>
      startsWith (trim apiKeyInput) (lit "AIza") = false
      ∨ trim userNameInput = []
  end.
Proof.
  unfold WelcomeScreen_handleSubmit.
  destruct (startsWith (trim apiKeyInput) (lit "AIza")) eqn:Ek; cbn [negb];
    [|by left].
  destruct (trim userNameInput) as [|x n] eqn:En; cbn [truthy_str negb];
    [by right|].
  split_and!; try done.
  - unfold credential, handleSubmit. cbn.
    destruct (trim apiKeyInput) eqn:E; [|done].
    by apply startsWith_nonempty in Ek.
  - unfold loadSettings, handleSubmit. cbn. by rewrite lookup_insert_eq.
Qed.

(** X18.  The submit of the composer does nothing, to the composer and
    to the page, while the page is loading, or when the text is blank
    and no file is attached; otherwise it calls [handleSend] with the
    text as typed, untrimmed, and the attached files, and empties the
    composer. *)
Theorem composer_submit ci clk st :
  if isLoading st
     || bool_decide (trim (input ci) = []) && bool_decide (pending ci = [])
  then submit ci clk st = (ci, (st, None))
  else submit ci clk st
       = (mkComposer [] [], handleSend (input ci) (Files (pending ci)) clk st).
Proof.
  unfold submit, ChatInput_handleSubmit.
  destruct (isLoading st); cbn [orb negb andb].
  - by rewrite !andb_false_r.
  - rewrite !andb_true_r.
    destruct (trim (input ci)) as [|x t] eqn:Et; cbn.
    + destruct (pending ci) as [|f fs] eqn:Ef; by cbn.
    + done.
Qed.

Lemma before_comma_id s : Forall (fun c => c ≠ 44%N) s → before_comma s = s.
Proof.
  induction 1 as [|c s Hc _ IH]; cbn; [done|].
  apply N.eqb_neq in Hc. by rewrite Hc, IH.
Qed.

Lemma split_comma_1_data_url pre payload :
  Forall (fun c => c ≠ 44%N) pre →
  Forall (fun c => c ≠ 44%N) payload →
  split_comma_1 (pre ++ 44%N :: payload) = Some payload.
Proof.
  intros Hpre Hp. induction Hpre as [|c pre Hc _ IH]; cbn.
  - by rewrite before_comma_id.
  - apply N.eqb_neq in Hc. by rewrite Hc.
Qed.

(** X19.  For a file read as a data URL [header,payload], neither part
    holding a comma, the composer makes an attachment whose inline part,
    as [sendMessageStream] builds it, carries the payload and is tagged
    with the file's MIME type; its kind is image or audio by the start
    of the MIME type, else pdf when the type contains "pdf", else
    other. *)
Theorem selected_file_inline_part name mime header payload objectUrl :
  Forall (fun c => c ≠ 44%N) header →
  Forall (fun c => c ≠ 44%N) payload →
  ∃ att,
    attachment_of_file (BrowserFile name mime)
      (Some (header ++ 44%N :: payload)) objectUrl = Some att
    ∧ attachmentPart att = inlineData (Some mime) payload
    ∧ type att = (if startsWith mime (lit "image/") then image
                  else if startsWith mime (lit "audio/") then audio
                  else if includes mime (lit "pdf") then pdf
                  else other).
Proof.
  intros Hh Hp. unfold attachment_of_file.
  replace (truthy_str (Some (header ++ 44%N :: payload))) with true
    by (by destruct header).
  eexists. split; [reflexivity|]. split; [|done].
  unfold attachmentPart. cbn. by rewrite split_comma_1_data_url.
Qed.

Lemma selected_file_inline_part_witness :
  ∃ att,
    attachment_of_file (BrowserFile (lit "a.pdf") (lit "application/pdf"))
      (Some (lit "data:application/pdf;base64,QUJD")) [] = Some att
    ∧ attachmentPart att = inlineData (Some (lit "application/pdf")) (lit "QUJD")
    ∧ type att = pdf.
Proof.
  destruct (selected_file_inline_part (lit "a.pdf") (lit "application/pdf")
              (lit "data:application/pdf;base64") (lit "QUJD") [])
    as (att & H1 & H2 & H3);
    [repeat constructor; discriminate | repeat constructor; discriminate |].
  by exists att.
Defined.

(** ** The message view and the model menu *)

(** X20.  A text is shown right to left exactly when one of its code
    units falls in the Arabic ranges: a text joined from two parts is
    left to right exactly when both parts are, and a text all of whose
    code units are below U+0600 is left to right. *)
Theorem direction_of_joined_text a b :
  (getTextDirection (a ++ b) = ltr
   ↔ getTextDirection a = ltr ∧ getTextDirection b = ltr)
  ∧ (Forall (fun c => (c < 0x600)%N) a → getTextDirection a = ltr).
Proof.
  unfold getTextDirection. split.
  - rewrite existsb_app.
    destruct (existsb is_arabic a), (existsb is_arabic b); cbn;
      intuition discriminate.
  - intros H. replace (existsb is_arabic a) with false; [done|].
    symmetry. induction H as [|c a Hc _ IH]; [done|]. cbn. rewrite IH.
    rewrite orb_false_r. unfold is_arabic.
    repeat (apply orb_false_iff; split); apply andb_false_iff; left;
      apply N.leb_gt; lia.
Qed.

(** X21.  Every model that can be selected, the fallback included, has
    one entry in the catalogue, found under its own id: the header
    always has a name to show. *)
Theorem every_model_in_catalogue sel :
  (∃ name, currentModelInfo sel = Some (sel, name))
  ∧ NoDup (List.map fst AVAILABLE_MODELS).
Proof.
  split.
  - destruct sel; eexists; reflexivity.
  - by apply (bool_decide_eq_true_1 (NoDup (List.map fst AVAILABLE_MODELS))).
Qed.

Lemma direction_of_joined_text_witness : getTextDirection (lit "abc") = ltr.
Proof.
  apply (proj2 (direction_of_joined_text (lit "abc") [])).
  repeat constructor.
Defined.

(** ** Edge cases of sessions and sends *)

(** X22.  Deleting an id that no session bears and that is not the
    current one removes nothing and keeps the current session; the
    session list is written to the store all the same. *)
Theorem delete_unknown_session id t_id t_upd st :
  Forall (fun s => s_id s ≠ id) (sessions st) →
  currentSessionId st ≠ Some id →
  sessions (deleteSession id t_id t_upd st) = sessions st
  ∧ currentSessionId (deleteSession id t_id t_upd st) = currentSessionId st
  ∧ sessions_stored (deleteSession id t_id t_upd st).
Proof.
  intros Hall Hcur.
  assert (List.filter (fun s => negb (str_eqb (s_id s) id)) (sessions st)
          = sessions st) as Hf.
  { apply filter_all. eapply Forall_impl; [exact Hall|]. intros s H. cbn in H.
    apply negb_true_iff. unfold str_eqb. by apply bool_decide_eq_false_2. }
  assert (id_is (currentSessionId st) id = false) as Hid.
  { destruct (currentSessionId st) as [c|]; [|done]. cbn.
    unfold str_eqb. apply bool_decide_eq_false_2. congruence. }
  unfold sessions_stored. rewrite deleteSession_storage, lookup_insert_eq.
  unfold deleteSession. rewrite Hid, Hf. by cbn.
Qed.

Lemma delete_unknown_session_witness :
  sessions (deleteSession (lit "4711") 9000 9000 older_used_last)
  = sessions older_used_last.
Proof.
  apply (delete_unknown_session (lit "4711") 9000 9000 older_used_last).
  - repeat constructor; discriminate.
  - discriminate.
Defined.

(** X23.  A send from a page with a credential whose current session id
    is borne by no session changes no session: the user message and the
    placeholder are not kept anywhere.  The request is made all the
    same, and a call awaits the stream. *)
Theorem send_without_session st txt a clk key :
  credential st = Some key →
  Forall (fun s => id_is (currentSessionId st) (s_id s) = false) (sessions st) →
  sessions (handleSend txt a clk st).1 = sessions st
  ∧ length (requests (handleSend txt a clk st).1) = S (length (requests st))
  ∧ (handleSend txt a clk st).2
    = Some (mkSendCall (currentSessionId st) (selectedModel st)
              (toString (t_bot clk + 1)) [] 0).
Proof.
  intros Hk Hall. unfold handleSend.
  rewrite (handleSend_begin_call st txt a clk key Hk st).
  split_and!; [| |done].
  - unfold handleSend_begin. rewrite Hk.
    match goal with |- context [sendMessageStream ?t ?f ?m ?k ?g] =>
      destruct (sendMessageStream_ok t f m k g (credential_nonempty _ _ Hk))
        as [r ->] end.
    cbn [fst sessions addRequest setGemini].
    assert (∀ new now st0, sessions st0 = sessions st →
              sessions (updateCurrentMessages (currentSessionId st) new now st0)
              = sessions st) as Hupd.
    { intros new now st0 H0. unfold updateCurrentMessages.
      destruct (negb _); [done|]. cbn. rewrite H0.
      clear H0. induction Hall as [|s l Hs _ IH]; [done|].
      cbn. by rewrite Hs, IH. }
    apply Hupd. cbn. by apply Hupd.
  - unfold handleSend_begin. rewrite Hk.
    match goal with |- context [sendMessageStream ?t ?f ?m ?k ?g] =>
      destruct (sendMessageStream_ok t f m k g (credential_nonempty _ _ Hk))
        as [r ->] end.
    cbn [fst requests addRequest setGemini length]. f_equal.
    rewrite (proj2 (proj2 (proj2 (proj2 (proj2 (proj2 (proj2
               (updateCurrentMessages_frame _ _ _ _)))))))).
    cbn [requests setIsLoading].
    rewrite (proj2 (proj2 (proj2 (proj2 (proj2 (proj2 (proj2
               (updateCurrentMessages_frame _ _ _ _)))))))).
    done.
Qed.

Lemma send_without_session_witness :
  sessions (handleSend (lit "lost") (Files []) (clock_at 3000)
              page_without_current).1 = sessions page_without_current
  ∧ length (requests (handleSend (lit "lost") (Files []) (clock_at 3000)
                        page_without_current).1) = 1%nat.
Proof.
  destruct (send_without_session page_without_current (lit "lost") (Files [])
              (clock_at 3000) (lit "AIzaKEY"))
    as (H1 & H2 & _); [reflexivity | repeat constructor |].
  by split.
Defined.

(** X24 is [run_one_stream] above: when every event that starts a send
    (from the composer, from an action button or from resend) comes
    while no message of the current session is streaming, every sequence
    of events keeps every session at one streaming message at most. *)
Lemma run_one_stream_witness :
  ∃ w', run first_load two_sends_in_turn = Some w' ∧ all_one_stream (app w').
Proof.
  eexists. split; [evaluated|].
  eapply (run_one_stream two_sends_in_turn first_load).
  - cbn -[fire]. split_and!; try done; intros _; vm_compute; repeat constructor.
  - repeat constructor.
  - evaluated.
Defined.
